(** * System-introspection completion providers of carapace-bin

    A shallow embedding of [pkg/actions/os/os.go]: the providers that turn
    operating-system state (environment, user and group databases, process
    table, PATH contents, static signal and state tables) into completion
    candidates, together with the [user:group] compound provider.

    Go strings are byte sequences; they are embedded as [string] (a list of
    8-bit [ascii]), and [len] is the byte length.  Run-time panics of Go
    (index or slice bound out of range) are made explicit through the [Exec]
    monad.  The operating system is an explicit read-only record [OS]. *)

From Stdlib Require Import ZArith NArith Ascii String.
From Stdlib Require Import Decimal DecimalFacts DecimalString DecimalPos DecimalZ.
From stdpp Require Import base list strings gmap fin_maps.

Local Open Scope string_scope.
Local Open Scope list_scope.

(** ** Go run-time: panics as an error monad *)

Module Go.

Inductive RuntimeError : Type :=
| IndexOutOfRange (index len : nat)
| SliceBoundsOutOfRange (bound len : nat).

Inductive Exec (A : Type) : Type :=
| Ret (a : A)
| Panic (e : RuntimeError).
Arguments Ret {A} a.
Arguments Panic {A} e.

Definition bind {A B : Type} (m : Exec A) (k : A -> Exec B) : Exec B :=
  match m with
  | Ret a => k a
  | Panic e => Panic e
  end.

Notation "'do' x <- m ; k" := (bind m (fun x => k))
  (at level 10, x name, m at level 100, k at level 200).

(** [for _, x := range xs { acc = body(acc, x) }] where the body may panic. *)
Fixpoint range {A St : Type} (body : St -> A -> Exec St) (xs : list A)
  (acc : St) : Exec St :=
  match xs with
  | [] => Ret acc
  | x :: xs' => do acc' <- body acc x; range body xs' acc'
  end.

(** [for index, x := range xs { ... }], the index counted from [index]. *)
Fixpoint range_indexed {A St : Type} (body : St -> nat -> A -> Exec St)
  (index : nat) (xs : list A) (acc : St) : Exec St :=
  match xs with
  | [] => Ret acc
  | x :: xs' => do acc' <- body acc index x; range_indexed body (S index) xs' acc'
  end.

(** [xs[i]] as an r-value: panics when [i] is out of range. *)
Definition elem {A : Type} (xs : list A) (i : nat) : Exec A :=
  match xs !! i with
  | Some x => Ret x
  | None => Panic (IndexOutOfRange i (length xs))
  end.

(** [xs[i] = v]: panics when [i] is out of range. *)
Definition store {A : Type} (xs : list A) (i : nat) (v : A) : Exec (list A) :=
  if decide (i < length xs) then Ret (<[i := v]> xs)
  else Panic (IndexOutOfRange i (length xs)).

(** [make([]string, n)]: [n] zero values. *)
Definition make (n : nat) : list string := replicate n "".

(** [s[:n]] on a string: panics when [n] exceeds [len(s)]. *)
Definition slice_to (s : string) (n : nat) : Exec string :=
  if decide (n <= String.length s) then Ret (substring 0 n s)
  else Panic (SliceBoundsOutOfRange n (String.length s)).

(** Go's [error] interface, reduced to its [Error()] text, and the
    [(value, error)] result pair of an I/O call: the callers below read the
    value only when [err == nil]. *)
Record error : Type := { Error : string }.

Inductive result (A : Type) : Type :=
| Ok (a : A)
| Err (err : error).
Arguments Ok {A} a.
Arguments Err {A} err.

End Go.
Import Go.

(** ** The parts of Go's [strings] and [strconv] packages that os.go calls *)

Module strings.

(** [strings.Split(s, sep)] for a one-byte separator (every call in os.go
    passes one: a newline or a colon).  The result always has one more
    element than [s] has separators; in particular [Split "" sep = [""]]. *)
Fixpoint Split (s : string) (sep : ascii) : list string :=
  match s with
  | EmptyString => [EmptyString]
  | String a s' =>
      if Ascii.eqb a sep then EmptyString :: Split s' sep
      else match Split s' sep with
           | field :: fields => String a field :: fields
           | [] => [String a EmptyString]
           end
  end.

(** [strings.Cut]: the text before and after the first separator. *)
Fixpoint Cut (s : string) (sep : ascii) : option (string * string) :=
  match s with
  | EmptyString => None
  | String a s' =>
      if Ascii.eqb a sep then Some (EmptyString, s')
      else match Cut s' sep with
           | Some (before, after) => Some (String a before, after)
           | None => None
           end
  end.

(** [strings.LastIndex(s, sep)] for a one-byte separator: the index of
    the last occurrence of the separator, [None] where Go returns -1. *)
Fixpoint LastIndex (s : string) (sep : ascii) : option nat :=
  match s with
  | EmptyString => None
  | String a s' =>
      match LastIndex s' sep with
      | Some index => Some (S index)
      | None => if Ascii.eqb a sep then Some 0 else None
      end
  end.

(** [strings.SplitN(s, sep, n)] for [n >= 0] and a one-byte separator:
    at most [n] substrings, the last one being the unsplit remainder. *)
Fixpoint SplitN (s : string) (sep : ascii) (n : nat) : list string :=
  match n with
  | 0 => []
  | S n' =>
      match n' with
      | 0 => [s]
      | S _ =>
          match Cut s sep with
          | Some (before, after) => before :: SplitN after sep n'
          | None => [s]
          end
      end
  end.

(** [unicode.IsSpace] on the UTF-8 encodings of the White_Space code points:
    one byte for the ASCII ones, two for U+0085 and U+00A0, three for
    U+1680, U+2000..U+200A, U+2028, U+2029, U+202F, U+205F and U+3000. *)
Definition byte (a : ascii) : N := N_of_ascii a.

Definition isSpace1 (a : ascii) : bool :=
  let x := byte a in ((0x09 <=? x) && (x <=? 0x0D))%N || (x =? 0x20)%N.

Definition isSpace2 (a b : ascii) : bool :=
  (byte a =? 0xC2)%N && ((byte b =? 0x85)%N || (byte b =? 0xA0)%N).

Definition isSpace3 (a b c : ascii) : bool :=
  let x := byte a in let y := byte b in let z := byte c in
  ((x =? 0xE1) && (y =? 0x9A) && (z =? 0x80))%N
  || ((x =? 0xE2) && (y =? 0x80)
      && (((0x80 <=? z) && (z <=? 0x8A)) || (z =? 0xA8) || (z =? 0xA9)
          || (z =? 0xAF)))%N
  || ((x =? 0xE2) && (y =? 0x81) && (z =? 0x9F))%N
  || ((x =? 0xE3) && (y =? 0x80) && (z =? 0x80))%N.

(** [strings.TrimLeftFunc(s, unicode.IsSpace)]. *)
Fixpoint TrimLeftSpace (s : string) : string :=
  match s with
  | EmptyString => s
  | String a s1 =>
      if isSpace1 a then TrimLeftSpace s1
      else match s1 with
           | EmptyString => s
           | String b s2 =>
               if isSpace2 a b then TrimLeftSpace s2
               else match s2 with
                    | EmptyString => s
                    | String c s3 =>
                        if isSpace3 a b c then TrimLeftSpace s3 else s
                    end
           end
  end.

(** The same scan from the end of the string, on the reversed bytes. *)
Fixpoint TrimLeftSpaceRev (s : string) : string :=
  match s with
  | EmptyString => s
  | String a s1 =>
      if isSpace1 a then TrimLeftSpaceRev s1
      else match s1 with
           | EmptyString => s
           | String b s2 =>
               if isSpace2 b a then TrimLeftSpaceRev s2
               else match s2 with
                    | EmptyString => s
                    | String c s3 =>
                        if isSpace3 c b a then TrimLeftSpaceRev s3 else s
                    end
           end
  end.

Definition TrimRightSpace (s : string) : string :=
  String.rev (TrimLeftSpaceRev (String.rev s)).

(** [strings.TrimSpace]. *)
Definition TrimSpace (s : string) : string :=
  TrimRightSpace (TrimLeftSpace s).

End strings.

Module strconv.

(** [strconv.Itoa]: the decimal rendering of an integer, with a leading
    minus sign for negative numbers. *)
Definition Itoa (i : Z) : string := NilZero.string_of_int (Z.to_int i).

End strconv.

(** ** Operating-system state read by the providers *)

Module sys.

(** [os.FileMode] is a [uint32]: the permission bits are the low nine bits,
    the file-type bits sit above them. *)
Definition FileMode : Type := Z.

Definition ModeDir : FileMode := Z.shiftl 1 31.
Definition ModeSymlink : FileMode := Z.shiftl 1 27.
Definition ModeDevice : FileMode := Z.shiftl 1 26.
Definition ModeNamedPipe : FileMode := Z.shiftl 1 25.
Definition ModeSocket : FileMode := Z.shiftl 1 24.
Definition ModeCharDevice : FileMode := Z.shiftl 1 21.
Definition ModeIrregular : FileMode := Z.shiftl 1 19.

Definition ModeType : FileMode :=
  Z.lor ModeDir (Z.lor ModeSymlink (Z.lor ModeNamedPipe (Z.lor ModeSocket
    (Z.lor ModeDevice (Z.lor ModeCharDevice ModeIrregular))))).

(** [FileMode.IsRegular]: no file-type bit is set. *)
Definition IsRegular (m : FileMode) : bool := Z.eqb (Z.land m ModeType) 0.

(** [os.FileInfo], as far as os.go reads it. *)
Record FileInfo : Type := { Name : string; Mode : FileMode }.

(** A [ps.Process]. *)
Record Process : Type := { Pid : Z; PPid : Z; Executable : string }.

(** What one completion request can observe of the system.  [CallbackValue]
    is the token being completed, which the carapace library hands to
    multi-part actions. *)
Record OS : Type := {
  Environ : list string;                          (* os.Environ() *)
  Getenv : string -> string;                      (* os.Getenv(key) *)
  ReadFile : string -> result string;             (* ioutil.ReadFile(path) *)
  ReadDir : string -> result (list FileInfo);     (* ioutil.ReadDir(path) *)
  Processes : result (list Process);              (* ps.Processes() *)
  Output : string -> list string -> result string;
                                   (* exec.Command(name, arg...).Output() *)
  CallbackValue : string
}.

End sys.
Import sys.

(** ** The carapace library, as far as os.go uses it

    The library itself is an imported dependency; these definitions follow
    its interface as os.go uses it: an [Action] is either a list of raw
    values, a message, or a callback evaluated at completion time. *)

Module carapace.

(** A completion candidate: a value and its (possibly empty) description. *)
Record Candidate : Type := { Value : string; Description : string }.

#[local] Set Warnings "-register-all".
Inductive Action : Type :=
| ActionRawValues (rawValues : list Candidate)
| ActionMessage (msg : string)
| ActionCallback (callback : OS -> list string -> Exec Action).

(** The outcome of invoking an action: candidates or one advisory message. *)
Inductive InvokedAction : Type :=
| Values (rawValues : list Candidate)
| Message (msg : string).

(** [Action.Invoke(args)]: run callbacks until raw values or a message
    remain.  A panic inside a callback is not recovered. *)
Fixpoint Invoke (a : Action) (os : OS) (args : list string)
  : Exec InvokedAction :=
  match a with
  | ActionRawValues rawValues => Ret (Values rawValues)
  | ActionMessage msg => Ret (Message msg)
  | ActionCallback callback =>
      match callback os args with
      | Ret a' => Invoke a' os args
      | Panic e => Panic e
      end
  end.

(** [InvokedAction.ToA()]. *)
Definition ToA (i : InvokedAction) : Action :=
  match i with
  | Values rawValues => ActionRawValues rawValues
  | Message msg => ActionMessage msg
  end.

(** [InvokedAction.Suffix(suffix)]: append [suffix] to every value. *)
Definition Suffix (suffix : string) (i : InvokedAction) : InvokedAction :=
  match i with
  | Values rawValues =>
      Values (map (fun c => {| Value := Value c +:+ suffix;
                               Description := Description c |}) rawValues)
  | Message msg => Message msg
  end.

(** [ActionValues(values...)]: one candidate per value, no description. *)
Definition ActionValues (values : list string) : Action :=
  ActionRawValues (map (fun v => {| Value := v; Description := "" |}) values).

(** Pair up [value, description, value, description, ...]. *)
Fixpoint described (values : list string) : option (list Candidate) :=
  match values with
  | [] => Some []
  | [_] => None
  | v :: d :: values' =>
      match described values' with
      | Some cs => Some ({| Value := v; Description := d |} :: cs)
      | None => None
      end
  end.

(** [ActionValuesDescribed(values...)]: candidates from alternating values
    and descriptions.  An odd number of arguments is a usage error that the
    library reports as a message; no provider of os.go passes one. *)
Definition ActionValuesDescribed (values : list string) : Action :=
  match described values with
  | Some cs => ActionRawValues cs
  | None => ActionMessage "invalid amount of arguments"
  end.

(** [InvokedAction.Prefix(prefix)]: put [prefix] in front of every value. *)
Definition Prefix (prefix : string) (i : InvokedAction) : InvokedAction :=
  match i with
  | Values rawValues =>
      Values (map (fun c => {| Value := prefix +:+ Value c;
                               Description := Description c |}) rawValues)
  | Message msg => Message msg
  end.

(** The already-typed prefix of a multi-part token: the token up to and
    including its last divider, empty when it has none. *)
Definition typedPrefix (divider : ascii) (token : string) : string :=
  match strings.LastIndex token divider with
  | Some index => substring 0 (index + 1) token
  | None => ""
  end.

(** The parts handed to a multi-part callback: the fields of the typed
    prefix but the last (empty) one, i.e. the segments of the token that
    are already terminated by the divider. *)
Definition multiParts (divider : ascii) (token : string) : list string :=
  removelast (strings.Split (typedPrefix divider token) divider).

(** [ActionMultiParts(divider, callback)]: split the token being completed
    on the divider, invoke the action that the callback chooses for the
    parts already typed, and put the typed prefix in front of every value,
    so that each value is the whole token it completes to (for [user:group]
    the values read [bin:audio]). *)
Definition ActionMultiParts (divider : ascii)
  (callback : OS -> list string -> list string -> Exec Action) : Action :=
  ActionCallback (fun os args =>
    let prefix := typedPrefix divider (CallbackValue os) in
    let parts := multiParts divider (CallbackValue os) in
    do a <- callback os args parts;
    do invoked <- Invoke a os args;
    Ret (ToA (Prefix prefix invoked))).

End carapace.
Import carapace.

(** ** The providers of os.go *)

(** [ActionEnvironmentVariables] completes environment values. *)
Definition ActionEnvironmentVariables : Action :=
  ActionCallback (fun os args =>
    let env := Environ os in
    let vars := make (length env * 2) in
    do vars <- range_indexed (fun vars index e =>
        let pair := strings.SplitN e "=" 2 in
        do name <- elem pair 0;
        do vars <- store vars (index * 2) name;
        do value <- elem pair 1;
        if decide (40 < String.length value) then
          do head <- slice_to value 37;
          store vars (index * 2 + 1) (head +:+ "...")
        else
          store vars (index * 2 + 1) value)
      0 (Environ os) vars;
    Ret (ActionValuesDescribed vars)).

(** [ActionGroups] completes system group names. *)
Definition ActionGroups : Action :=
  ActionCallback (fun os args =>
    let groups : list string := [] in
    do groups <-
      match ReadFile os "/etc/group" with
      | Ok content =>
          range (fun groups entry =>
              let splitted := strings.Split entry ":" in
              if decide (2 < length splitted) then
                do group <- elem splitted 0;
                do id <- elem splitted 2;
                if decide (0 < String.length (strings.TrimSpace group)) then
                  Ret (groups ++ [group; id])
                else Ret groups
              else Ret groups)
            (strings.Split content "010") groups
      | Err _ => Ret groups
      end;
    Ret (ActionValuesDescribed groups)).

(** [ActionKillSignals] completes linux kill signals. *)
Definition ActionKillSignals : Action :=
  ActionValuesDescribed [
    "ABRT"; "Abnormal termination";
    "ALRM"; "Virtual alarm clock";
    "BUS"; "BUS error";
    "CHLD"; "Child status has changed";
    "CONT"; "Continue stopped process";
    "FPE"; "Floating-point exception";
    "HUP"; "Hangup detected on controlling terminal";
    "ILL"; "Illegal instruction";
    "INT"; "Interrupt from keyboard";
    "KILL"; "Kill, unblockable";
    "PIPE"; "Broken pipe";
    "POLL"; "Pollable event occurred";
    "PROF"; "Profiling alarm clock timer expired";
    "PWR"; "Power failure restart";
    "QUIT"; "Quit from keyboard";
    "SEGV"; "Segmentation violation";
    "STKFLT"; "Stack fault on coprocessor";
    "STOP"; "Stop process, unblockable";
    "SYS"; "Bad system call";
    "TERM"; "Termination request";
    "TRAP"; "Trace/breakpoint trap";
    "TSTP"; "Stop typed at keyboard";
    "TTIN"; "Background read from tty";
    "TTOU"; "Background write to tty";
    "URG"; "Urgent condition on socket";
    "USR1"; "User-defined signal 1";
    "USR2"; "User-defined signal 2";
    "VTALRM"; "Virtual alarm clock";
    "WINCH"; "Window size change";
    "XCPU"; "CPU time limit exceeded";
    "XFSZ"; "File size limit exceeded"
  ].

(** [ActionProcessExecutables] completes executable names of current
    processes. *)
Definition ActionProcessExecutables : Action :=
  ActionCallback (fun os args =>
    match Processes os with
    | Err err => Ret (ActionMessage (Error err))
    | Ok processes =>
        let executables := make 0 in
        do executables <-
          range (fun executables process =>
              Ret (executables
                   ++ [Executable process; strconv.Itoa (Pid process)]))
            processes executables;
        Ret (ActionValuesDescribed executables)
    end).

(** [ActionProcessStates] completes linux process states. *)
Definition ActionProcessStates : Action :=
  ActionValuesDescribed [
    "D"; "uninterruptible sleep (usually IO)";
    "I"; "Idle kernel thread";
    "R"; "running or runnable (on run queue)";
    "S"; "interruptible sleep (waiting for an event to complete)";
    "T"; "stopped by job control signal";
    "W"; "paging (not valid since the 2.6.xx kernel)";
    "X"; "dead (should never be seen)";
    "Z"; "defunct (zombie) process, terminated but not reaped by its parent";
    "t"; "stopped by debugger during the tracing"
  ].

(** [ActionUsers] completes system user names. *)
Definition ActionUsers : Action :=
  ActionCallback (fun os args =>
    let users : list string := [] in
    do users <-
      match ReadFile os "/etc/passwd" with
      | Ok content =>
          range (fun users entry =>
              let splitted := strings.Split entry ":" in
              if decide (2 < length splitted) then
                do user <- elem splitted 0;
                do id <- elem splitted 2;
                if decide (0 < String.length (strings.TrimSpace user)) then
                  Ret (users ++ [user; id])
                else Ret users
              else Ret users)
            (strings.Split content "010") users
      | Err _ => Ret users
      end;
    Ret (ActionValuesDescribed users)).

(** [ActionUserGroup] completes system user:group separately. *)
Definition ActionUserGroup : Action :=
  ActionMultiParts ":" (fun os args parts =>
    match length parts with
    | 0 =>
        do users <- Invoke ActionUsers os args;
        Ret (ToA (Suffix ":" users))
    | 1 => Ret ActionGroups
    | _ => Ret (ActionValues [])
    end).

(** [ActionShells] completes available terminal shells. *)
Definition ActionShells : Action :=
  ActionCallback (fun os args =>
    match Output os "chsh" ["--list-shells"] with
    | Err err => Ret (ActionMessage (Error err))
    | Ok output => Ret (ActionValues (strings.Split output "010"))
    end).

(** [isExecAny]: some execute bit (owner, group or other) is set;
    [0111] is octal. *)
Definition isExecAny (mode : FileMode) : bool :=
  negb (Z.eqb (Z.land mode 0x49%Z) 0%Z).

(** The [executables] map of [ActionPathExecutables] after both loops. *)
Definition pathExecutables (os : OS) : gmap string bool :=
  foldl (fun executables folder =>
      match ReadDir os folder with
      | Ok files =>
          foldl (fun executables f =>
              if IsRegular (Mode f) && isExecAny (Mode f)
              then <[Name f := true]> executables
              else executables)
            executables files
      | Err _ => executables
      end)
    (∅ : gmap string bool) (strings.Split (Getenv os "PATH") ":").

(** [ActionPathExecutables] completes executable files from PATH.  Go leaves
    the iteration order of [for executable := range executables]
    unspecified; [keys] is the order the run time picks, some enumeration
    of the map's keys. *)
Definition ActionPathExecutables (keys : gmap string bool -> list string)
  : Action :=
  ActionCallback (fun os args =>
    let executables := pathExecutables os in
    let vals := make 0 in
    let vals := foldl (fun vals executable => (vals ++ [executable]))
                  vals (keys executables) in
    Ret (ActionValues vals)).

(** An iteration order is admissible when it enumerates each key once. *)
Definition rangeOrder (keys : gmap string bool -> list string) : Prop :=
  forall m : gmap string bool, keys m ≡ₚ (map_to_list m).*1.

(** ** Vocabulary of the specification *)

Module Spec.

(** Number of occurrences of a byte in a string ("how many colons"). *)
Fixpoint countByte (c : ascii) (s : string) : nat :=
  match s with
  | EmptyString => 0
  | String a s' => (if Ascii.eqb a c then 1 else 0) + countByte c s'
  end.

(** A value-only candidate. *)
Definition valueOnly (v : string) : Candidate :=
  {| Value := v; Description := "" |}.

(** A candidate with the delimiter appended to its value. *)
Definition withSuffix (suffix : string) (c : Candidate) : Candidate :=
  {| Value := Value c +:+ suffix; Description := Description c |}.

(** The alternating value/description arguments that stand for a list of
    candidates. *)
Definition flat (cs : list Candidate) : list string :=
  flat_map (fun c => [Value c; Description c]) cs.

(** The truncation rule in the specification's words: a description longer
    than 40 is replaced by its first 37 bytes followed by an ellipsis. *)
Definition truncate (description : string) : string :=
  if decide (40 < String.length description)
  then substring 0 37 description +:+ "..."
  else description.

(** [e] is [name=value], split at its first equals sign. *)
Definition splitsAtFirstEq (e name value : string) : Prop :=
  e = name +:+ "=" +:+ value /\ countByte "=" name = 0.

(** The candidate the specification assigns to an environment entry. *)
Definition envCandidate (e : string) (c : Candidate) : Prop :=
  exists name value,
    splitsAtFirstEq e name value
    /\ c = {| Value := name; Description := truncate value |}.

(** The candidates of one line of a colon-delimited database: field 0 and
    field 2 of a line with more than two fields and a non-blank name. *)
Definition record (line : string) : list Candidate :=
  match strings.Split line ":" with
  | name :: _ :: id :: _ =>
      if decide (strings.TrimSpace name = "") then []
      else [{| Value := name; Description := id |}]
  | _ => []
  end.

(** The candidates of a database file, in line order; none when the file
    cannot be read. *)
Definition database (file : result string) : list Candidate :=
  match file with
  | Ok content => flat_map record (strings.Split content "010")
  | Err _ => []
  end.

(** The candidate of a live process. *)
Definition processCandidate (p : Process) : Candidate :=
  {| Value := Executable p; Description := strconv.Itoa (Pid p) |}.

(** Reading a decimal string back (the inverse of [strconv.Itoa]). *)
Definition Atoi (s : string) : option Z :=
  option_map Z.of_int (NilZero.int_of_string s).

(** [name] is a regular file with some execute bit in a readable directory
    listed in PATH. *)
Definition pathExecutable (os : OS) (name : string) : Prop :=
  exists folder files f,
    folder ∈ strings.Split (Getenv os "PATH") ":"
    /\ ReadDir os folder = Ok files
    /\ f ∈ files
    /\ IsRegular (Mode f) = true
    /\ Z.land (Mode f) 0x49%Z <> 0%Z
    /\ Name f = name.

End Spec.

(** ** Sample system states *)

Module Sample.

Definition noFile : error := {| Error := "open: no such file or directory" |}.

(** A system whose user database is readable, whose group database is not,
    with a long environment value and a PATH that lists a directory twice. *)
Definition os : OS := {|
  Environ := ["SHELL=/bin/elvish";
              "LS_COLORS=rs=0:di=01;34:ln=01;36:mh=00:pi=40;33:so=01;35";
              "EMPTY="];
  Getenv := fun key => if String.eqb key "PATH" then "/bin:/nope:/bin" else "";
  ReadFile := fun path =>
    if String.eqb path "/etc/passwd"
    then Ok ("root:x:0:0:root:/root:/bin/bash" +:+ String "010"
             ("bin:x:1:1:bin:/bin:/sbin/nologin" +:+ String "010" ""))
    else Err noFile;
  ReadDir := fun path =>
    if String.eqb path "/bin"
    then Ok [ {| Name := "sh"; Mode := 0x1ED%Z |};
              {| Name := "README"; Mode := 0x1A4%Z |};
              {| Name := "X11"; Mode := Z.lor ModeDir 0x1ED%Z |} ]
    else Err noFile;
  Processes := Ok [ {| Pid := 439; PPid := 1; Executable := "NetworkManager" |};
                    {| Pid := 454; PPid := 1; Executable := "cupsd" |} ];
  Output := fun _ _ =>
    Ok ("/bin/bash" +:+ String "010" ("/bin/zsh" +:+ String "010" ""));
  CallbackValue := "root:"
|}.

(** The same system with both databases unreadable. *)
Definition bare : OS := {|
  Environ := Environ os;
  Getenv := Getenv os;
  ReadFile := fun _ => Err noFile;
  ReadDir := ReadDir os;
  Processes := Processes os;
  Output := Output os;
  CallbackValue := CallbackValue os
|}.

(** The same system with an environment entry that has no equals sign. *)
Definition oddEnv : OS := {|
  Environ := ["SHELL=/bin/elvish"; "FOO"];
  Getenv := Getenv os;
  ReadFile := ReadFile os;
  ReadDir := ReadDir os;
  Processes := Processes os;
  Output := Output os;
  CallbackValue := CallbackValue os
|}.

(** One admissible iteration order of a Go map. *)
Definition keys (m : gmap string bool) : list string := (map_to_list m).*1.

End Sample.

(** ** Variations of a system state and text helpers *)

Module Scenario.

(** The same system while another token is being completed. *)
Definition withToken (os : OS) (token : string) : OS := {|
  Environ := Environ os;
  Getenv := Getenv os;
  ReadFile := ReadFile os;
  ReadDir := ReadDir os;
  Processes := Processes os;
  Output := Output os;
  CallbackValue := token
|}.

(** The same system with [content] readable at [path]. *)
Definition withFile (os : OS) (path content : string) : OS := {|
  Environ := Environ os;
  Getenv := Getenv os;
  ReadFile := fun p => if String.eqb p path then Ok content else ReadFile os p;
  ReadDir := ReadDir os;
  Processes := Processes os;
  Output := Output os;
  CallbackValue := CallbackValue os
|}.

(** The same system with another value of the PATH variable. *)
Definition withPath (os : OS) (path : string) : OS := {|
  Environ := Environ os;
  Getenv := fun key => if String.eqb key "PATH" then path else Getenv os key;
  ReadFile := ReadFile os;
  ReadDir := ReadDir os;
  Processes := Processes os;
  Output := Output os;
  CallbackValue := CallbackValue os
|}.

(** The same system with no directory readable. *)
Definition withoutDirs (os : OS) : OS := {|
  Environ := Environ os;
  Getenv := Getenv os;
  ReadFile := ReadFile os;
  ReadDir := fun _ => Err Sample.noFile;
  Processes := Processes os;
  Output := Output os;
  CallbackValue := CallbackValue os
|}.

(** The same system with [files] as the listing of the directory [path]. *)
Definition withDir (os : OS) (path : string) (files : list FileInfo) : OS := {|
  Environ := Environ os;
  Getenv := Getenv os;
  ReadFile := ReadFile os;
  ReadDir := fun p => if String.eqb p path then Ok files else ReadDir os p;
  Processes := Processes os;
  Output := Output os;
  CallbackValue := CallbackValue os
|}.

(** The sample system with a readable group database and a second
    directory of executables. *)
Definition unix : OS :=
  withDir
    (withFile Sample.os "/etc/group"
       ("audio:x:29:" +:+ String "010" ("lp:x:7:" +:+ String "010" "")))
    "/usr/bin"
    [ {| Name := "ls"; Mode := 0x1ED%Z |}; {| Name := "env"; Mode := 0x1ED%Z |} ].

(** Another admissible iteration order of a Go map. *)
Definition reversedKeys (m : gmap string bool) : list string :=
  reverse (Sample.keys m).

(** A candidate with the typed prefix in front of its value. *)
Definition withPrefix (prefix : string) (c : Candidate) : Candidate :=
  {| Value := prefix +:+ Value c; Description := Description c |}.

(** A description of at most 40 bytes. *)
Definition short (c : Candidate) : Prop := String.length (Description c) <= 40.

(** The range of Go's 64-bit [int]. *)
Definition goInt (i : Z) : Prop := (- 2 ^ 63 <= i < 2 ^ 63)%Z.

(** What the environment-variable provider makes of an entry: the name
    before the first equals sign, and the value after it, whole when it has
    at most 40 bytes and cut to 37 bytes followed by three dots (40 bytes)
    when it is longer. *)
Definition envDescribed (e : string) (c : Candidate) : Prop :=
  exists name value,
    Spec.splitsAtFirstEq e name value
    /\ Value c = name
    /\ (String.length value <= 40 -> Description c = value)
    /\ (40 < String.length value ->
        Description c = substring 0 37 value +:+ "..."
        /\ String.length (Description c) = 40).

(** Fields joined by a one-byte separator (the inverse of [strings.Split]). *)
Fixpoint Join (fields : list string) (sep : ascii) : string :=
  match fields with
  | [] => ""
  | field :: rest =>
      match rest with
      | [] => field
      | _ :: _ => field +:+ String sep (Join rest sep)
      end
  end.

(** Every byte of the string is ASCII white space (tab, newline, vertical
    tab, form feed, carriage return or space). *)
Fixpoint asciiBlank (s : string) : bool :=
  match s with
  | EmptyString => true
  | String a s' => strings.isSpace1 a && asciiBlank s'
  end.

(** What the database parsers guarantee of a candidate: no colon and no
    newline in value or description, and a value with some byte that is not
    ASCII white space. *)
Definition cleanRecord (c : Candidate) : Prop :=
  Spec.countByte ":" (Value c) = 0
  /\ Spec.countByte "010" (Value c) = 0
  /\ Spec.countByte ":" (Description c) = 0
  /\ Spec.countByte "010" (Description c) = 0
  /\ asciiBlank (Value c) = false.

End Scenario.

(** * Properties *)

(** ** Go run-time and library lemmas *)

Lemma bind_Ret {A B : Type} (a : A) (k : A -> Exec B) :
  Go.bind (Ret a) k = k a.
Proof. reflexivity. Qed.

Lemma elem_lookup {A : Type} (xs : list A) (i : nat) (x : A) :
  xs !! i = Some x -> elem xs i = Ret x.
Proof. unfold elem. intros ->. reflexivity. Qed.

Lemma store_app {A : Type} (pre : list A) (old v : A) (post : list A) (i : nat) :
  i = length pre ->
  store (pre ++ old :: post) i v = Ret (pre ++ v :: post).
Proof.
  intros ->. unfold store.
  destruct (decide _) as [_ | Hge].
  - f_equal. rewrite insert_app_r_alt by lia.
    replace (length pre - length pre) with 0 by lia. reflexivity.
  - exfalso. apply Hge. rewrite length_app. simpl. lia.
Qed.

Lemma range_total {A St : Type} (f : St -> A -> St) (body : St -> A -> Exec St)
  (xs : list A) (acc : St) :
  (forall acc x, body acc x = Ret (f acc x)) ->
  range body xs acc = Ret (foldl f acc xs).
Proof.
  intros Hbody. revert acc.
  induction xs as [| x xs IH]; intros acc; simpl; [reflexivity |].
  rewrite Hbody. simpl. apply IH.
Qed.

Lemma Split_length (s : string) (sep : ascii) :
  length (strings.Split s sep) = S (Spec.countByte sep s).
Proof.
  induction s as [| a s IH]; simpl; [reflexivity |].
  destruct (Ascii.eqb a sep); simpl.
  - rewrite IH. reflexivity.
  - destruct (strings.Split s sep); simpl in *; lia.
Qed.

Lemma countByte_app (c : ascii) (s1 s2 : string) :
  Spec.countByte c (s1 +:+ s2) = Spec.countByte c s1 + Spec.countByte c s2.
Proof.
  induction s1 as [| a s1 IH]; simpl; [reflexivity |]. rewrite IH. lia.
Qed.

Lemma LastIndex_None (s : string) (sep : ascii) :
  strings.LastIndex s sep = None <-> Spec.countByte sep s = 0.
Proof.
  induction s as [| a s IH]; simpl; [split; reflexivity |].
  destruct (strings.LastIndex s sep) as [index |].
  - split; [discriminate |]. intros H.
    assert (Hs : Spec.countByte sep s = 0) by lia.
    apply IH in Hs. discriminate.
  - destruct (Ascii.eqb a sep); simpl.
    + split; [discriminate | lia].
    + split; [intros _; apply IH; reflexivity | reflexivity].
Qed.

(** The typed prefix is the token without its last, unterminated field. *)
Lemma typedPrefix_split (divider : ascii) (token : string) :
  exists last : string,
    token = typedPrefix divider token +:+ last
    /\ Spec.countByte divider last = 0.
Proof.
  unfold typedPrefix. induction token as [| a token IH]; simpl.
  - exists "". split; reflexivity.
  - destruct (strings.LastIndex token divider) as [index |] eqn:Hlast.
    + destruct IH as [last [Htoken Hlast']]. exists last.
      split; [| exact Hlast'].
      change (String a token
              = String a (substring 0 (index + 1) token +:+ last)).
      rewrite <- Htoken. reflexivity.
    + assert (Hnone : Spec.countByte divider token = 0)
        by (apply LastIndex_None, Hlast).
      destruct (Ascii.eqb a divider) eqn:Ha.
      * exists token. split; [| exact Hnone]. simpl.
        destruct token; reflexivity.
      * exists (String a token). split; [reflexivity |]. simpl.
        rewrite Ha. exact Hnone.
Qed.

Lemma typedPrefix_count (divider : ascii) (token : string) :
  Spec.countByte divider (typedPrefix divider token)
  = Spec.countByte divider token.
Proof.
  destruct (typedPrefix_split divider token) as [last [Htoken Hlast]].
  rewrite Htoken at 2. rewrite countByte_app, Hlast. lia.
Qed.

Lemma typedPrefix_none (divider : ascii) (token : string) :
  Spec.countByte divider token = 0 -> typedPrefix divider token = "".
Proof.
  intros Hnone. apply LastIndex_None in Hnone. unfold typedPrefix.
  rewrite Hnone. reflexivity.
Qed.

Lemma multiParts_length (divider : ascii) (token : string) :
  length (multiParts divider token) = Spec.countByte divider token.
Proof.
  unfold multiParts. rewrite <- (typedPrefix_count divider token).
  pose proof (Split_length (typedPrefix divider token) divider) as Hlen.
  destruct (strings.Split (typedPrefix divider token) divider)
    as [| field fields] using rev_ind.
  - simpl in Hlen. lia.
  - rewrite removelast_last. rewrite length_app in Hlen. simpl in Hlen. lia.
Qed.

Lemma described_flat (cs : list Candidate) :
  described (Spec.flat cs) = Some cs.
Proof.
  induction cs as [| [v d] cs IH]; [reflexivity |].
  change (Spec.flat ({| Value := v; Description := d |} :: cs))
    with (v :: d :: Spec.flat cs).
  simpl. rewrite IH. reflexivity.
Qed.

Lemma ActionValuesDescribed_flat (cs : list Candidate) :
  ActionValuesDescribed (Spec.flat cs) = ActionRawValues cs.
Proof. unfold ActionValuesDescribed. rewrite described_flat. reflexivity. Qed.

Lemma flat_app (cs1 cs2 : list Candidate) :
  Spec.flat (cs1 ++ cs2) = Spec.flat cs1 ++ Spec.flat cs2.
Proof. unfold Spec.flat. apply flat_map_app. Qed.

(** ** The user and group databases *)

Lemma length_zero_iff_empty (s : string) : String.length s = 0 <-> s = "".
Proof. destruct s; simpl; split; (congruence || lia). Qed.

(** One iteration of the parsing loop appends the candidates of the line. *)
Lemma record_step (acc : list string) (entry : string) :
  (let splitted := strings.Split entry ":" in
   if decide (2 < length splitted) then
     do name <- elem splitted 0;
     do id <- elem splitted 2;
     if decide (0 < String.length (strings.TrimSpace name)) then
       Ret (acc ++ [name; id])
     else Ret acc
   else Ret acc)
  = Ret (acc ++ Spec.flat (Spec.record entry)).
Proof.
  unfold Spec.record. cbv zeta.
  destruct (strings.Split entry ":") as [| name [| x [| id rest]]]; simpl.
  1-3: rewrite app_nil_r; reflexivity.
  destruct (decide (strings.TrimSpace name = "")) as [Hempty | Hfull];
    case_decide as Hlen; simpl.
  - rewrite Hempty in Hlen. simpl in Hlen. lia.
  - rewrite app_nil_r. reflexivity.
  - reflexivity.
  - exfalso. apply Hfull, length_zero_iff_empty. lia.
Qed.

Lemma foldl_records (lines : list string) (acc : list string) :
  foldl (fun acc entry => acc ++ Spec.flat (Spec.record entry)) acc lines
  = acc ++ Spec.flat (flat_map Spec.record lines).
Proof.
  revert acc. induction lines as [| line lines IH]; intros acc; simpl.
  - rewrite app_nil_r. reflexivity.
  - rewrite IH, flat_app, app_assoc. reflexivity.
Qed.

Lemma ActionUsers_invoke (os : OS) (args : list string) :
  Invoke ActionUsers os args
  = Ret (Values (Spec.database (ReadFile os "/etc/passwd"))).
Proof.
  unfold ActionUsers. cbn [Invoke]. cbv zeta.
  destruct (ReadFile os "/etc/passwd") as [content | err]; cbn [Spec.database].
  - rewrite (range_total
               (fun acc entry => acc ++ Spec.flat (Spec.record entry)))
      by (intros; apply record_step).
    rewrite foldl_records, bind_Ret, app_nil_l, ActionValuesDescribed_flat.
    reflexivity.
  - reflexivity.
Qed.

Lemma ActionGroups_invoke (os : OS) (args : list string) :
  Invoke ActionGroups os args
  = Ret (Values (Spec.database (ReadFile os "/etc/group"))).
Proof.
  unfold ActionGroups. cbn [Invoke]. cbv zeta.
  destruct (ReadFile os "/etc/group") as [content | err]; cbn [Spec.database].
  - rewrite (range_total
               (fun acc entry => acc ++ Spec.flat (Spec.record entry)))
      by (intros; apply record_step).
    rewrite foldl_records, bind_Ret, app_nil_l, ActionValuesDescribed_flat.
    reflexivity.
  - reflexivity.
Qed.

Lemma record_at_most_one (line : string) : length (Spec.record line) <= 1.
Proof.
  unfold Spec.record.
  destruct (strings.Split line ":") as [| name [| x [| id rest]]]; simpl;
    try lia.
  case_decide; simpl; lia.
Qed.

(** C2: both database parsers split the content on newline and each line on
    a colon; a line yields exactly one candidate, field 0 as value and field
    2 as description, if and only if it has more than 2 fields and its name
    is non-empty after trimming white space, and no candidate otherwise;
    candidates come in line order; users and groups differ only in the path
    of the file. *)
Theorem database_parsers (os : OS) (args : list string) :
  Invoke ActionUsers os args
  = Ret (Values (Spec.database (ReadFile os "/etc/passwd")))
  /\ Invoke ActionGroups os args
     = Ret (Values (Spec.database (ReadFile os "/etc/group")))
  /\ (forall content : string,
        Spec.database (Ok content)
        = flat_map Spec.record (strings.Split content "010"))
  /\ (forall line : string,
        let fields := strings.Split line ":" in
        let valid := 2 < length fields
                     /\ 0 < String.length (strings.TrimSpace (nth 0 fields "")) in
        (valid <->
         Spec.record line = [{| Value := nth 0 fields "";
                                Description := nth 2 fields "" |}])
        /\ (~ valid <-> Spec.record line = [])).
Proof.
  split; [apply ActionUsers_invoke |].
  split; [apply ActionGroups_invoke |].
  split; [reflexivity |].
  intros line fields valid. subst valid fields. unfold Spec.record.
  destruct (strings.Split line ":") as [| name [| x [| id rest]]]; simpl;
    try (split; split; [lia | discriminate | reflexivity | lia]).
  pose proof (length_zero_iff_empty (strings.TrimSpace name)) as Hlen.
  assert (Hpos : 0 < String.length (strings.TrimSpace name)
                 <-> strings.TrimSpace name <> "") by (rewrite <- Hlen; lia).
  case_decide as Hname; split; split; try discriminate; try reflexivity.
  - intros [_ Hgt]. apply Hpos in Hgt. contradiction.
  - intros _ [_ Hgt]. apply Hpos in Hgt. contradiction.
  - intros _. split; [lia | apply Hpos, Hname].
  - intros Hnot. exfalso. apply Hnot. split; [lia | apply Hpos, Hname].
Qed.

(** C3: when the database file cannot be read, the users and groups
    providers return an empty candidate set, not a message. *)
Theorem database_unreadable (os : OS) (args : list string) (err : error) :
  (ReadFile os "/etc/passwd" = Err err ->
   Invoke ActionUsers os args = Ret (Values []))
  /\ (ReadFile os "/etc/group" = Err err ->
      Invoke ActionGroups os args = Ret (Values [])).
Proof.
  split; intros Hread.
  - rewrite ActionUsers_invoke, Hread. reflexivity.
  - rewrite ActionGroups_invoke, Hread. reflexivity.
Qed.

Lemma database_unreadable_witness :
  ReadFile Sample.bare "/etc/passwd" = Err Sample.noFile
  /\ ReadFile Sample.bare "/etc/group" = Err Sample.noFile
  /\ Invoke ActionUsers Sample.bare [] = Ret (Values [])
  /\ Invoke ActionGroups Sample.bare [] = Ret (Values []).
Proof.
  split; [reflexivity |]. split; [reflexivity |].
  split.
  - apply (proj1 (database_unreadable Sample.bare [] Sample.noFile)).
    reflexivity.
  - apply (proj2 (database_unreadable Sample.bare [] Sample.noFile)).
    reflexivity.
Defined.

(** The end-to-end example of the specification: two well-formed records. *)
Example users_of_sample :
  Invoke ActionUsers Sample.os []
  = Ret (Values [{| Value := "root"; Description := "0" |};
                 {| Value := "bin"; Description := "1" |}]).
Proof. reflexivity. Qed.

(** A blank name yields no candidate, nor does a line of two fields. *)
Example record_blank_name : Spec.record "  :x:5" = [].
Proof. reflexivity. Qed.

Example record_two_fields : Spec.record "name:x" = [].
Proof. reflexivity. Qed.

Example record_five_fields :
  Spec.record "name:x:id:y:z" = [{| Value := "name"; Description := "id" |}].
Proof. reflexivity. Qed.

(** ** The user:group compound provider *)

Lemma map_withPrefix_empty (cs : list Candidate) :
  map (Scenario.withPrefix "") cs = cs.
Proof.
  induction cs as [| [v d] cs IH]; simpl; [reflexivity |].
  rewrite IH. reflexivity.
Qed.

Lemma ActionUserGroup_invoke (os : OS) (args : list string) :
  Invoke ActionUserGroup os args
  = Ret (Values
           (map (Scenario.withPrefix (typedPrefix ":" (CallbackValue os)))
              match Spec.countByte ":" (CallbackValue os) with
              | 0 => map (Spec.withSuffix ":")
                       (Spec.database (ReadFile os "/etc/passwd"))
              | 1 => Spec.database (ReadFile os "/etc/group")
              | _ => []
              end)).
Proof.
  unfold ActionUserGroup, ActionMultiParts. cbn [Invoke]. cbv zeta.
  rewrite multiParts_length.
  destruct (Spec.countByte ":" (CallbackValue os)) as [| [| n]].
  - rewrite ActionUsers_invoke. reflexivity.
  - rewrite bind_Ret, ActionGroups_invoke. reflexivity.
  - reflexivity.
Qed.

(** C1, counterexample: with [bin:] typed, the compound provider does not
    return the groups' candidates unmodified; each value has the typed
    prefix in front, as in [bin:audio]. *)
Lemma ActionUserGroup_one_colon_prefixed :
  Spec.countByte ":" "bin:" = 1
  /\ Invoke ActionGroups (Scenario.withToken Scenario.unix "bin:") []
     = Ret (Values [{| Value := "audio"; Description := "29" |};
                    {| Value := "lp"; Description := "7" |}])
  /\ Invoke ActionUserGroup (Scenario.withToken Scenario.unix "bin:") []
     = Ret (Values [{| Value := "bin:audio"; Description := "29" |};
                    {| Value := "bin:lp"; Description := "7" |}])
  /\ Invoke ActionUserGroup (Scenario.withToken Scenario.unix "bin:") []
     <> Invoke ActionGroups (Scenario.withToken Scenario.unix "bin:") [].
Proof.
  split; [reflexivity |]. split; [reflexivity |]. split; [reflexivity |].
  discriminate.
Qed.

(** C1, as amended: the compound provider returns the users' candidates,
    each with a colon appended to its value, when the token has no colon;
    the groups' candidates, each with the typed prefix (the token up to and
    including its colon) in front of its value and its description
    unchanged, when the token has exactly one colon; nothing when it has two
    or more. *)
Theorem ActionUserGroup_dispatch (os : OS) (args : list string) :
  exists users groups : list Candidate,
    Invoke ActionUsers os args = Ret (Values users)
    /\ Invoke ActionGroups os args = Ret (Values groups)
    /\ Invoke ActionUserGroup os args
       = Ret (Values
                match Spec.countByte ":" (CallbackValue os) with
                | 0 => map (Spec.withSuffix ":") users
                | 1 => map (Scenario.withPrefix
                              (typedPrefix ":" (CallbackValue os))) groups
                | _ => []
                end)
    /\ exists last : string,
         CallbackValue os = typedPrefix ":" (CallbackValue os) +:+ last
         /\ Spec.countByte ":" last = 0.
Proof.
  exists (Spec.database (ReadFile os "/etc/passwd")),
         (Spec.database (ReadFile os "/etc/group")).
  split; [apply ActionUsers_invoke |].
  split; [apply ActionGroups_invoke |].
  split; [| apply typedPrefix_split].
  rewrite ActionUserGroup_invoke.
  destruct (Spec.countByte ":" (CallbackValue os)) as [| [| n]] eqn:Hcount.
  - rewrite typedPrefix_none by exact Hcount.
    rewrite map_withPrefix_empty. reflexivity.
  - reflexivity.
  - reflexivity.
Qed.

(** ** Environment variables *)

Lemma SplitN_2 (e : string) (sep : ascii) :
  strings.SplitN e sep 2
  = match strings.Cut e sep with
    | Some (name, value) => [name; value]
    | None => [e]
    end.
Proof. simpl. destruct (strings.Cut e sep) as [[name value] |]; reflexivity. Qed.

Lemma Cut_Some (e : string) (sep : ascii) (name value : string) :
  strings.Cut e sep = Some (name, value) ->
  e = name +:+ String sep value /\ Spec.countByte sep name = 0.
Proof.
  revert name. induction e as [| a e IH]; intros name; simpl; [discriminate |].
  destruct (Ascii.eqb_spec a sep) as [-> | Hne].
  - intros [= <- <-]. split; reflexivity.
  - destruct (strings.Cut e sep) as [[before after] |]; [| discriminate].
    intros [= <- <-]. destruct (IH before eq_refl) as [-> Hcount].
    split; [reflexivity |]. simpl.
    destruct (Ascii.eqb_spec a sep); [contradiction | exact Hcount].
Qed.

Lemma Cut_None (e : string) (sep : ascii) :
  strings.Cut e sep = None <-> Spec.countByte sep e = 0.
Proof.
  induction e as [| a e IH]; simpl; [split; reflexivity |].
  destruct (Ascii.eqb a sep); simpl.
  - split; [discriminate | lia].
  - destruct (strings.Cut e sep) as [[before after] |].
    + split; [discriminate |]. intros H. apply IH in H. discriminate.
    + split; [intros _; apply IH; reflexivity | reflexivity].
Qed.

Lemma length_substring_prefix (n : nat) (s : string) :
  n <= String.length s -> String.length (substring 0 n s) = n.
Proof.
  revert s. induction n as [| n IH]; intros s Hle.
  - destruct s; reflexivity.
  - destruct s as [| a s]; simpl in *; [lia |]. rewrite IH by lia. reflexivity.
Qed.

Lemma length_append (s1 s2 : string) :
  String.length (s1 +:+ s2) = String.length s1 + String.length s2.
Proof. induction s1 as [| a s1 IH]; simpl; [reflexivity | rewrite IH; reflexivity]. Qed.

Lemma truncate_length (description : string) :
  String.length (Spec.truncate description) <= 40
  /\ (40 < String.length description ->
      String.length (Spec.truncate description) = 40).
Proof.
  unfold Spec.truncate. case_decide as Hlong.
  - rewrite length_append, length_substring_prefix by lia. simpl. lia.
  - lia.
Qed.

Section EnvironmentLoop.

(** The loop body of [ActionEnvironmentVariables], abstracted by what it
    does to the two slots of the entry at [index]. *)
Variable body : list string -> nat -> string -> Exec (list string).

Hypothesis body_pair :
  forall pre post index e name value,
    length pre = index * 2 ->
    strings.Cut e "=" = Some (name, value) ->
    body (pre ++ "" :: "" :: post) index e
    = Ret (pre ++ name :: Spec.truncate value :: post).

Hypothesis body_single :
  forall pre post index e,
    length pre = index * 2 ->
    strings.Cut e "=" = None ->
    body (pre ++ "" :: "" :: post) index e = Panic (IndexOutOfRange 1 1).

Lemma environment_loop_candidates (es : list string) :
  Forall (fun e => 0 < Spec.countByte "=" e) es ->
  exists cs : list Candidate,
    Forall2 Spec.envCandidate es cs
    /\ forall pre index,
         length pre = index * 2 ->
         range_indexed body index es (pre ++ make (length es * 2))
         = Ret (pre ++ Spec.flat cs).
Proof.
  induction 1 as [| e es Heq _ [cs [Hcs Hloop]]].
  - exists []. split; [constructor |]. intros pre index _. reflexivity.
  - destruct (strings.Cut e "=") as [[name value] |] eqn:Hcut.
    2: { apply Cut_None in Hcut. lia. }
    exists ({| Value := name; Description := Spec.truncate value |} :: cs).
    split.
    + constructor; [| exact Hcs].
      exists name, value. split; [| reflexivity].
      apply Cut_Some in Hcut. exact Hcut.
    + intros pre index Hpre.
      change (make (length (e :: es) * 2))
        with ("" :: "" :: make (length es * 2)).
      simpl.
      rewrite (body_pair _ _ _ _ _ _ Hpre Hcut). simpl.
      specialize (Hloop (pre ++ [name; Spec.truncate value]) (S index)).
      rewrite <- !app_assoc in Hloop. simpl in Hloop. apply Hloop.
      rewrite length_app. simpl. lia.
Qed.

Lemma environment_loop_panics (es : list string) :
  Exists (fun e => Spec.countByte "=" e = 0) es ->
  forall pre index,
    length pre = index * 2 ->
    range_indexed body index es (pre ++ make (length es * 2))
    = Panic (IndexOutOfRange 1 1).
Proof.
  induction es as [| e es IH]; intros Hex pre index Hpre.
  - inversion Hex.
  - change (make (length (e :: es) * 2))
      with ("" :: "" :: make (length es * 2)).
    simpl. destruct (strings.Cut e "=") as [[name value] |] eqn:Hcut.
    + rewrite (body_pair _ _ _ _ _ _ Hpre Hcut). simpl.
      inversion Hex as [? ? Hhere | ? ? Hlater]; subst.
      { apply Cut_None in Hhere. congruence. }
      specialize (IH Hlater (pre ++ [name; Spec.truncate value]) (S index)).
      rewrite <- !app_assoc in IH. simpl in IH. apply IH.
      rewrite length_app. simpl. lia.
    + rewrite (body_single _ _ _ _ Hpre Hcut). reflexivity.
Qed.

End EnvironmentLoop.

Lemma store_pair_second (pre post : list string) (name v : string) (i : nat) :
  length pre = i * 2 ->
  store (pre ++ name :: "" :: post) (i * 2 + 1) v
  = Ret (pre ++ name :: v :: post).
Proof.
  intros Hpre.
  replace (pre ++ name :: "" :: post) with ((pre ++ [name]) ++ "" :: post)
    by (rewrite <- app_assoc; reflexivity).
  rewrite store_app by (rewrite length_app; simpl; lia).
  rewrite <- app_assoc. reflexivity.
Qed.

(** The provider is the indexed loop over the environment followed by
    [ActionValuesDescribed]; its body fills the two slots of a [name=value]
    entry and panics on an entry without an equals sign. *)
Lemma ActionEnvironmentVariables_loop (os : OS) (args : list string) :
  exists body : list string -> nat -> string -> Exec (list string),
    Invoke ActionEnvironmentVariables os args
    = match (do vars <- range_indexed body 0 (Environ os)
                           (make (length (Environ os) * 2));
             Ret (ActionValuesDescribed vars)) with
      | Ret a => Invoke a os args
      | Panic e => Panic e
      end
    /\ (forall pre post index e name value,
          length pre = index * 2 ->
          strings.Cut e "=" = Some (name, value) ->
          body (pre ++ "" :: "" :: post) index e
          = Ret (pre ++ name :: Spec.truncate value :: post))
    /\ (forall pre post index e,
          length pre = index * 2 ->
          strings.Cut e "=" = None ->
          body (pre ++ "" :: "" :: post) index e
          = Panic (IndexOutOfRange 1 1)).
Proof.
  eexists. split; [| split].
  - unfold ActionEnvironmentVariables. cbn [Invoke]. cbv zeta. reflexivity.
  - intros pre post index e name value Hpre Hcut. cbv beta zeta.
    rewrite SplitN_2, Hcut.
    rewrite (elem_lookup [name; value] 0 name eq_refl), bind_Ret.
    rewrite (store_app pre "" name ("" :: post)) by lia.
    rewrite bind_Ret.
    rewrite (elem_lookup [name; value] 1 value eq_refl), bind_Ret.
    unfold Spec.truncate. case_decide as Hlong.
    + unfold slice_to. case_decide; [| lia]. rewrite bind_Ret.
      apply store_pair_second, Hpre.
    + apply store_pair_second, Hpre.
  - intros pre post index e Hpre Hcut. cbv beta zeta.
    rewrite SplitN_2, Hcut.
    rewrite (elem_lookup [e] 0 e eq_refl), bind_Ret.
    rewrite (store_app pre "" e ("" :: post)) by lia.
    reflexivity.
Qed.

Lemma ActionEnvironmentVariables_invoke (os : OS) (args : list string) :
  Forall (fun e => 0 < Spec.countByte "=" e) (Environ os) ->
  exists cs : list Candidate,
    Forall2 Spec.envCandidate (Environ os) cs
    /\ Invoke ActionEnvironmentVariables os args = Ret (Values cs).
Proof.
  intros Hall.
  destruct (ActionEnvironmentVariables_loop os args)
    as [body [-> [Hpair Hsingle]]].
  destruct (environment_loop_candidates body Hpair (Environ os) Hall)
    as [cs [Hcs Hloop]].
  exists cs. split; [exact Hcs |].
  specialize (Hloop [] 0 eq_refl). simpl in Hloop. rewrite Hloop. simpl.
  rewrite ActionValuesDescribed_flat. reflexivity.
Qed.

Lemma ActionEnvironmentVariables_panic (os : OS) (args : list string) :
  Exists (fun e => Spec.countByte "=" e = 0) (Environ os) ->
  Invoke ActionEnvironmentVariables os args = Panic (IndexOutOfRange 1 1).
Proof.
  intros Hex.
  destruct (ActionEnvironmentVariables_loop os args)
    as [body [-> [Hpair Hsingle]]].
  pose proof (environment_loop_panics body Hpair Hsingle (Environ os) Hex
                [] 0 eq_refl) as Hloop.
  simpl in Hloop. rewrite Hloop. reflexivity.
Qed.

(** C4: for an environment of [name=value] entries, the provider emits one
    candidate per entry, in the order of the environment: the name before
    the first equals sign, and the value after it, unchanged when its length
    is at most 40 and replaced by its first 37 bytes followed by three dots
    (40 bytes in all) when it is longer. *)
Theorem ActionEnvironmentVariables_candidates (os : OS) (args : list string) :
  Forall (fun e => 0 < Spec.countByte "=" e) (Environ os) ->
  exists cs : list Candidate,
    Invoke ActionEnvironmentVariables os args = Ret (Values cs)
    /\ Forall2 Spec.envCandidate (Environ os) cs
    /\ forall value : string,
         (String.length value <= 40 -> Spec.truncate value = value)
         /\ (40 < String.length value ->
             Spec.truncate value = substring 0 37 value +:+ "..."
             /\ String.length (Spec.truncate value) = 40).
Proof.
  intros Hall.
  destruct (ActionEnvironmentVariables_invoke os args Hall) as [cs [Hcs Hrun]].
  exists cs. split; [exact Hrun |]. split; [exact Hcs |].
  intros value. split.
  - intros Hshort. unfold Spec.truncate. case_decide; [lia | reflexivity].
  - intros Hlong. split.
    + unfold Spec.truncate. case_decide; [reflexivity | lia].
    + apply truncate_length, Hlong.
Qed.

Lemma ActionEnvironmentVariables_candidates_witness :
  Forall (fun e => 0 < Spec.countByte "=" e) (Environ Sample.os)
  /\ exists cs : list Candidate,
       Invoke ActionEnvironmentVariables Sample.os [] = Ret (Values cs)
       /\ Forall2 Spec.envCandidate (Environ Sample.os) cs
       /\ forall value : string,
            (String.length value <= 40 -> Spec.truncate value = value)
            /\ (40 < String.length value ->
                Spec.truncate value = substring 0 37 value +:+ "..."
                /\ String.length (Spec.truncate value) = 40).
Proof.
  assert (Hall : Forall (fun e => 0 < Spec.countByte "=" e) (Environ Sample.os))
    by (repeat constructor; simpl; lia).
  split; [exact Hall |].
  apply (ActionEnvironmentVariables_candidates Sample.os [] Hall).
Defined.

(** C9, counterexample: the static process-state table carries a
    description of 54 bytes, emitted whole. *)
Lemma ActionProcessStates_description_over_40 :
  exists (cs : list Candidate) (c : Candidate),
    Invoke ActionProcessStates Sample.os [] = Ret (Values cs)
    /\ c ∈ cs
    /\ Description c = "interruptible sleep (waiting for an event to complete)"
    /\ String.length (Description c) = 54
    /\ ~ String.length (Description c) <= 40.
Proof.
  eexists _, {| Value := "S"; Description := _ |}.
  split; [reflexivity |].
  split; [do 3 apply list_elem_of_further; apply list_elem_of_here |].
  split; [reflexivity |]. split; [reflexivity |]. simpl. lia.
Qed.

(** Whatever the environment-variable provider returns pairs up with the
    environment, entry by entry. *)
Lemma ActionEnvironmentVariables_returned (os : OS) (args : list string)
  (cs : list Candidate) :
  Invoke ActionEnvironmentVariables os args = Ret (Values cs) ->
  Forall2 Spec.envCandidate (Environ os) cs.
Proof.
  intros Hrun.
  assert (dec : forall e : string,
            {0 < Spec.countByte "=" e} + {Spec.countByte "=" e = 0})
    by (intros e; destruct (Spec.countByte "=" e);
        [right; reflexivity | left; lia]).
  destruct (Forall_Exists_dec _ _ dec (Environ os)) as [Hall | Hex].
  - destruct (ActionEnvironmentVariables_invoke os args Hall)
      as [cs' [Hcs Hrun']].
    rewrite Hrun' in Hrun. injection Hrun as <-. exact Hcs.
  - rewrite ActionEnvironmentVariables_panic in Hrun by exact Hex.
    discriminate.
Qed.

(** C10: on an environment with an entry that has no equals sign, the
    environment-variable provider panics with an index out of range: the
    split yields one part and the second is read unguarded. *)
Theorem ActionEnvironmentVariables_faults :
  Environ Sample.oddEnv = ["SHELL=/bin/elvish"; "FOO"]
  /\ strings.SplitN "FOO" "=" 2 = ["FOO"]
  /\ Invoke ActionEnvironmentVariables Sample.oddEnv []
     = Panic (IndexOutOfRange 1 1).
Proof. split; [reflexivity |]. split; reflexivity. Qed.

(** ** Processes, shells and the static tables *)

Lemma Atoi_Itoa (i : Z) : Spec.Atoi (strconv.Itoa i) = Some i.
Proof.
  unfold Spec.Atoi, strconv.Itoa.
  rewrite NilZero.isi.
  - simpl. rewrite Stdlib.Numbers.DecimalZ.of_to. reflexivity.
  - destruct i as [| p | p]; simpl; try discriminate.
    intros [= H]. exact (DecimalPos.Unsigned.to_uint_nonnil p H).
  - destruct i as [| p | p]; simpl; try discriminate.
    intros [= H]. exact (DecimalPos.Unsigned.to_uint_nonnil p H).
Qed.

Lemma foldl_processes (processes : list Process) (acc : list string) :
  foldl (fun executables process =>
           executables ++ [Executable process; strconv.Itoa (Pid process)])
    acc processes
  = acc ++ Spec.flat (map Spec.processCandidate processes).
Proof.
  revert acc. induction processes as [| p ps IH]; intros acc; simpl.
  - rewrite app_nil_r. reflexivity.
  - rewrite IH, <- app_assoc. reflexivity.
Qed.

Lemma ActionProcessExecutables_invoke (os : OS) (args : list string) :
  Invoke ActionProcessExecutables os args
  = Ret match Processes os with
        | Err err => Message (Error err)
        | Ok processes => Values (map Spec.processCandidate processes)
        end.
Proof.
  unfold ActionProcessExecutables. cbn [Invoke].
  destruct (Processes os) as [processes | err]; [| reflexivity].
  cbv zeta.
  rewrite (range_total
             (fun executables process =>
                executables
                ++ [Executable process; strconv.Itoa (Pid process)]))
    by reflexivity.
  rewrite foldl_processes, bind_Ret. simpl.
  rewrite ActionValuesDescribed_flat. reflexivity.
Qed.

(** C6: when the process table cannot be queried the provider returns a
    message with the text of the error; otherwise it returns one candidate
    per process, the executable name described by the pid in decimal. *)
Theorem ActionProcessExecutables_result (os : OS) (args : list string) :
  Invoke ActionProcessExecutables os args
  = Ret match Processes os with
        | Err err => Message (Error err)
        | Ok processes => Values (map Spec.processCandidate processes)
        end
  /\ forall p : Process,
       Value (Spec.processCandidate p) = Executable p
       /\ Spec.Atoi (Description (Spec.processCandidate p)) = Some (Pid p).
Proof.
  split; [apply ActionProcessExecutables_invoke |].
  intros p. split; [reflexivity | apply Atoi_Itoa].
Qed.

Lemma ActionShells_invoke (os : OS) (args : list string) :
  Invoke ActionShells os args
  = Ret match Output os "chsh" ["--list-shells"] with
        | Err err => Message (Error err)
        | Ok output => Values (map Spec.valueOnly (strings.Split output "010"))
        end.
Proof.
  unfold ActionShells. cbn [Invoke].
  destruct (Output os "chsh" ["--list-shells"]); reflexivity.
Qed.

(** C7: on the output of two shell paths, each ended by a newline, the
    shells provider returns three values: the two paths and the empty
    string that follows the last newline. *)
Theorem ActionShells_trailing_newline :
  Output Sample.os "chsh" ["--list-shells"]
  = Ok ("/bin/bash" +:+ String "010" ("/bin/zsh" +:+ String "010" ""))
  /\ Invoke ActionShells Sample.os []
     = Ret (Values [Spec.valueOnly "/bin/bash"; Spec.valueOnly "/bin/zsh";
                    Spec.valueOnly ""]).
Proof. split; reflexivity. Qed.

(** C8, counterexample: the kill-signal table does not have 30 entries. *)
Lemma ActionKillSignals_not_30 :
  ~ exists cs : list Candidate,
      Invoke ActionKillSignals Sample.os [] = Ret (Values cs)
      /\ length cs = 30.
Proof. intros [cs [[= <-] Hlen]]. simpl in Hlen. discriminate. Qed.

(** C8, as amended: the kill-signal provider returns a fixed enumeration of
    31 pairs and the process-state provider one of 9 pairs, with distinct
    values, [KILL] described as "Kill, unblockable" and [Z] as the defunct
    (zombie) process, the same for every invocation and system state, never
    a message and never a fault. *)
Theorem static_tables :
  exists signals states : list Candidate,
    length signals = 31
    /\ length states = 9
    /\ NoDup (map Value signals)
    /\ NoDup (map Value states)
    /\ signals !! 9 = Some {| Value := "KILL";
                              Description := "Kill, unblockable" |}
    /\ states !! 7
       = Some {| Value := "Z";
                 Description := "defunct (zombie) process, terminated but not reaped by its parent" |}
    /\ map Value states = ["D"; "I"; "R"; "S"; "T"; "W"; "X"; "Z"; "t"]
    /\ forall (os : OS) (args : list string),
         Invoke ActionKillSignals os args = Ret (Values signals)
         /\ Invoke ActionProcessStates os args = Ret (Values states).
Proof.
  eexists _, _.
  do 7 (split; [shelve |]).
  intros os args. split; reflexivity.
  Unshelve.
  all: try reflexivity.
  all: apply NoDup_ListNoDup; vm_compute; repeat constructor; simpl;
    intuition discriminate.
Qed.

(** ** Executables on PATH *)

Lemma isExecAny_true (mode : FileMode) :
  isExecAny mode = true <-> Z.land mode 0x49%Z <> 0%Z.
Proof. unfold isExecAny. rewrite negb_true_iff. apply Z.eqb_neq. Qed.

(** Octal [0111] selects the execute bits of other, group and owner. *)
Lemma testbit_exec_mask (n : Z) :
  Z.testbit 0x49 n = ((n =? 0) || (n =? 3) || (n =? 6))%Z.
Proof.
  destruct (Z.ltb_spec n 0) as [Hneg | Hnn].
  - rewrite Z.testbit_neg_r by lia.
    destruct (Z.eqb_spec n 0), (Z.eqb_spec n 3), (Z.eqb_spec n 6);
      lia || reflexivity.
  - destruct (Z.ltb_spec n 7) as [Hlt | Hge].
    + assert (n = 0 \/ n = 1 \/ n = 2 \/ n = 3 \/ n = 4 \/ n = 5 \/ n = 6)%Z
        as H by lia.
      repeat destruct H as [-> | H]; try subst n; reflexivity.
    + rewrite Z.bits_above_log2 by (simpl; lia).
      destruct (Z.eqb_spec n 0), (Z.eqb_spec n 3), (Z.eqb_spec n 6);
        lia || reflexivity.
Qed.

(** X9: [isExecAny] holds exactly when bit 0, 3 or 6 of the mode is set
    (execute for other, group or owner); no other bit of the mode, such as
    read, write, setuid or a file-type bit, has any influence. *)
Lemma isExecAny_bits (mode : FileMode) :
  isExecAny mode = true <->
  Z.testbit mode 0 || Z.testbit mode 3 || Z.testbit mode 6 = true.
Proof.
  rewrite isExecAny_true. split.
  - intros Hne.
    destruct (Z.testbit mode 0 || Z.testbit mode 3 || Z.testbit mode 6)
      eqn:Hbits; [reflexivity |].
    exfalso. apply Hne. apply Z.bits_inj'. intros n _.
    rewrite Z.land_spec, Z.bits_0, testbit_exec_mask.
    apply orb_false_iff in Hbits as [Hbits H6].
    apply orb_false_iff in Hbits as [H0 H3].
    destruct (Z.eqb_spec n 0) as [-> |]; [rewrite H0; reflexivity |].
    destruct (Z.eqb_spec n 3) as [-> |]; [rewrite H3; reflexivity |].
    destruct (Z.eqb_spec n 6) as [-> |]; [rewrite H6; reflexivity |].
    apply andb_false_r.
  - intros Hbits Hzero.
    assert (Hall : forall n, Z.testbit mode n && Z.testbit 0x49 n = false)
      by (intros n; rewrite <- Z.land_spec, Hzero; apply Z.bits_0).
    pose proof (Hall 0%Z) as H0. pose proof (Hall 3%Z) as H3.
    pose proof (Hall 6%Z) as H6.
    rewrite testbit_exec_mask in H0, H3, H6.
    change (Z.testbit mode 0 && true = false) in H0.
    change (Z.testbit mode 3 && true = false) in H3.
    change (Z.testbit mode 6 && true = false) in H6.
    rewrite andb_true_r in H0, H3, H6.
    rewrite H0, H3, H6 in Hbits. discriminate.
Qed.

Lemma keys_lookup (m : gmap string bool) (name : string) :
  name ∈ (map_to_list m).*1 <-> is_Some (m !! name).
Proof.
  rewrite list_elem_of_fmap. split.
  - intros [[k v] [-> Hin]]. apply elem_of_map_to_list in Hin. eauto.
  - intros [v Hv]. exists (name, v). split; [reflexivity |].
    apply elem_of_map_to_list, Hv.
Qed.

(** The inner loop: the files of one directory. *)
Lemma files_loop (files : list FileInfo) (m : gmap string bool) (name : string) :
  is_Some (foldl (fun executables f =>
                    if IsRegular (Mode f) && isExecAny (Mode f)
                    then <[Name f := true]> executables
                    else executables) m files !! name)
  <-> is_Some (m !! name)
      \/ exists f, f ∈ files
                   /\ IsRegular (Mode f) = true
                   /\ Z.land (Mode f) 0x49%Z <> 0%Z
                   /\ Name f = name.
Proof.
  revert m. induction files as [| f files IH]; intros m; simpl.
  - split; [auto |]. intros [H | [f [Hin _]]]; [exact H |].
    apply elem_of_nil in Hin. contradiction.
  - rewrite IH. clear IH.
    destruct (IsRegular (Mode f) && isExecAny (Mode f)) eqn:Hexec.
    + apply andb_true_iff in Hexec as [Hreg Hany]. apply isExecAny_true in Hany.
      rewrite lookup_insert_is_Some. split.
      * intros [[<- | [_ Hm]] | [g [Hin Hg]]].
        -- right. exists f. split; [apply list_elem_of_here | auto].
        -- left. exact Hm.
        -- right. exists g. split; [apply list_elem_of_further, Hin | exact Hg].
      * intros [Hm | [g [Hin Hg]]].
        -- left. destruct (decide (Name f = name)); [left | right]; auto.
        -- apply elem_of_cons in Hin as [-> | Hin].
           ++ left. left. apply Hg.
           ++ right. exists g. auto.
    + split.
      * intros [Hm | [g [Hin Hg]]]; [left; exact Hm |].
        right. exists g. split; [apply list_elem_of_further, Hin | exact Hg].
      * intros [Hm | [g [Hin Hg]]]; [left; exact Hm |].
        apply elem_of_cons in Hin as [-> | Hin].
        -- exfalso. destruct Hg as [Hreg [Hany _]].
           apply isExecAny_true in Hany. rewrite Hreg, Hany in Hexec.
           discriminate.
        -- right. exists g. auto.
Qed.

(** The outer loop: the directories of PATH, unreadable ones skipped. *)
Lemma folders_loop (os : OS) (folders : list string) (m : gmap string bool)
  (name : string) :
  is_Some (foldl (fun executables folder =>
                    match ReadDir os folder with
                    | Ok files =>
                        foldl (fun executables f =>
                                 if IsRegular (Mode f) && isExecAny (Mode f)
                                 then <[Name f := true]> executables
                                 else executables) executables files
                    | Err _ => executables
                    end) m folders !! name)
  <-> is_Some (m !! name)
      \/ exists folder files f,
           folder ∈ folders
           /\ ReadDir os folder = Ok files
           /\ f ∈ files
           /\ IsRegular (Mode f) = true
           /\ Z.land (Mode f) 0x49%Z <> 0%Z
           /\ Name f = name.
Proof.
  revert m. induction folders as [| folder folders IH]; intros m; simpl.
  - split; [auto |]. intros [H | [folder [files [f [Hin _]]]]]; [exact H |].
    apply elem_of_nil in Hin. contradiction.
  - rewrite IH. clear IH.
    destruct (ReadDir os folder) as [files | err] eqn:Hread.
    + rewrite files_loop. split.
      * intros [[Hm | [f [Hin Hf]]] | [d [fs [f [Hin Hf]]]]].
        -- left. exact Hm.
        -- right. exists folder, files, f.
           split; [apply list_elem_of_here | auto].
        -- right. exists d, fs, f.
           split; [apply list_elem_of_further, Hin | exact Hf].
      * intros [Hm | [d [fs [f [Hin [Hd Hf]]]]]]; [left; left; exact Hm |].
        apply elem_of_cons in Hin as [-> | Hin].
        -- rewrite Hread in Hd. injection Hd as <-.
           left. right. exists f. exact Hf.
        -- right. exists d, fs, f. auto.
    + split.
      * intros [Hm | [d [fs [f [Hin Hf]]]]]; [left; exact Hm |].
        right. exists d, fs, f.
        split; [apply list_elem_of_further, Hin | exact Hf].
      * intros [Hm | [d [fs [f [Hin [Hd Hf]]]]]]; [left; exact Hm |].
        apply elem_of_cons in Hin as [-> | Hin].
        -- rewrite Hread in Hd. discriminate.
        -- right. exists d, fs, f. auto.
Qed.

Lemma pathExecutables_lookup (os : OS) (name : string) :
  is_Some (pathExecutables os !! name) <-> Spec.pathExecutable os name.
Proof.
  unfold pathExecutables, Spec.pathExecutable. rewrite folders_loop.
  split; [| auto].
  intros [Hempty | H]; [| exact H].
  rewrite lookup_empty in Hempty. destruct Hempty as [? [=]].
Qed.

Lemma foldl_snoc {A : Type} (xs acc : list A) :
  foldl (fun vals x => vals ++ [x]) acc xs = acc ++ xs.
Proof.
  revert acc. induction xs as [| x xs IH]; intros acc; simpl.
  - rewrite app_nil_r. reflexivity.
  - rewrite IH, <- app_assoc. reflexivity.
Qed.

(** C5: whatever order the run time iterates the map in, the provider
    returns value-only candidates whose values are exactly the names of the
    regular files with some execute bit in the readable directories of
    PATH, each name once; unreadable directories contribute nothing and
    cause no message. *)
Theorem ActionPathExecutables_names (keys : gmap string bool -> list string)
  (os : OS) (args : list string) :
  rangeOrder keys ->
  exists vals : list string,
    Invoke (ActionPathExecutables keys) os args
    = Ret (Values (map Spec.valueOnly vals))
    /\ NoDup vals
    /\ forall name : string, name ∈ vals <-> Spec.pathExecutable os name.
Proof.
  intros Horder. exists (keys (pathExecutables os)).
  split; [| split].
  - unfold ActionPathExecutables. cbn [Invoke]. cbv zeta.
    rewrite foldl_snoc. reflexivity.
  - rewrite (Horder (pathExecutables os)). apply NoDup_fst_map_to_list.
  - intros name. rewrite (Horder (pathExecutables os)), keys_lookup.
    apply pathExecutables_lookup.
Qed.

Lemma ActionPathExecutables_names_witness :
  rangeOrder Sample.keys
  /\ Getenv Sample.os "PATH" = "/bin:/nope:/bin"
  /\ Invoke (ActionPathExecutables Sample.keys) Sample.os []
     = Ret (Values [Spec.valueOnly "sh"])
  /\ exists vals : list string,
       Invoke (ActionPathExecutables Sample.keys) Sample.os []
       = Ret (Values (map Spec.valueOnly vals))
       /\ NoDup vals
       /\ forall name : string,
            name ∈ vals <-> Spec.pathExecutable Sample.os name.
Proof.
  assert (Horder : rangeOrder Sample.keys) by (intros m; reflexivity).
  split; [exact Horder |]. split; [reflexivity |].
  split; [vm_compute; reflexivity |].
  apply (ActionPathExecutables_names Sample.keys Sample.os [] Horder).
Defined.

(** ** Absence of faults

    Apart from the environment-variable provider on an entry without an
    equals sign, no provider panics: every invocation returns candidates or
    a message. *)
(** X10: for every system state and argument list, the groups, kill-signal,
    process, process-state, users, user:group, shells and PATH providers
    return candidates or a message and never panic (the indexed reads of
    the database parsers are guarded by the length test); so does the
    environment provider when every entry has an equals sign. *)
Lemma providers_return (keys : gmap string bool -> list string) (os : OS)
  (args : list string) :
  Forall (fun a : Action => exists r, Invoke a os args = Ret r)
    [ActionGroups; ActionKillSignals; ActionProcessExecutables;
     ActionProcessStates; ActionUsers; ActionUserGroup; ActionShells;
     ActionPathExecutables keys]
  /\ (Forall (fun e => 0 < Spec.countByte "=" e) (Environ os) ->
      exists r, Invoke ActionEnvironmentVariables os args = Ret r).
Proof.
  split.
  - repeat constructor.
    + rewrite ActionGroups_invoke. eauto.
    + eexists. reflexivity.
    + rewrite ActionProcessExecutables_invoke. eauto.
    + eexists. reflexivity.
    + rewrite ActionUsers_invoke. eauto.
    + rewrite ActionUserGroup_invoke. eauto.
    + rewrite ActionShells_invoke. eauto.
    + eexists. reflexivity.
  - intros Hall.
    destruct (ActionEnvironmentVariables_invoke os args Hall) as [cs [_ ->]].
    eauto.
Qed.

(** ** Further properties of the database parsers *)

Lemma Split_fields_count (c : ascii) (s : string) (sep : ascii) (field : string) :
  field ∈ strings.Split s sep ->
  Spec.countByte c field <= Spec.countByte c s.
Proof.
  revert field. induction s as [| a s IH]; intros field; simpl.
  - intros Hin. apply list_elem_of_singleton in Hin as ->. simpl. lia.
  - destruct (Ascii.eqb a sep).
    + intros Hin. apply elem_of_cons in Hin as [-> | Hin]; simpl; [lia |].
      specialize (IH field Hin). lia.
    + destruct (strings.Split s sep) as [| h t].
      * intros Hin. apply list_elem_of_singleton in Hin as ->. simpl. lia.
      * intros Hin. apply elem_of_cons in Hin as [-> | Hin].
        -- simpl. specialize (IH h (list_elem_of_here _ _)). lia.
        -- specialize (IH field (list_elem_of_further _ _ _ Hin)). lia.
Qed.

Lemma Split_fields_no_sep (s : string) (sep : ascii) (field : string) :
  field ∈ strings.Split s sep -> Spec.countByte sep field = 0.
Proof.
  revert field. induction s as [| a s IH]; intros field; simpl.
  - intros Hin. apply list_elem_of_singleton in Hin as ->. reflexivity.
  - destruct (Ascii.eqb a sep) eqn:Heq.
    + intros Hin. apply elem_of_cons in Hin as [-> | Hin]; [reflexivity |].
      apply IH, Hin.
    + destruct (strings.Split s sep) as [| h t].
      * intros Hin. apply list_elem_of_singleton in Hin as ->. simpl.
        rewrite Heq. reflexivity.
      * intros Hin. apply elem_of_cons in Hin as [-> | Hin].
        -- simpl. rewrite Heq. apply IH, list_elem_of_here.
        -- apply IH, list_elem_of_further, Hin.
Qed.

Lemma Split_append (s1 s2 : string) (sep : ascii) :
  strings.Split (s1 +:+ String sep s2) sep
  = strings.Split s1 sep ++ strings.Split s2 sep.
Proof.
  induction s1 as [| a s1 IH]; simpl.
  - rewrite Ascii.eqb_refl. reflexivity.
  - rewrite IH. destruct (Ascii.eqb a sep); [reflexivity |].
    pose proof (Split_length s1 sep) as Hlen.
    destruct (strings.Split s1 sep) as [| h t]; [simpl in Hlen; lia |].
    reflexivity.
Qed.

Lemma asciiBlank_TrimSpace (s : string) :
  Scenario.asciiBlank s = true -> strings.TrimSpace s = "".
Proof.
  intros Hblank.
  assert (Hleft : strings.TrimLeftSpace s = "").
  { induction s as [| a s IH]; [reflexivity |].
    simpl in Hblank. apply andb_true_iff in Hblank as [Ha Hs].
    simpl. rewrite Ha. apply IH, Hs. }
  unfold strings.TrimSpace. rewrite Hleft. reflexivity.
Qed.

Lemma record_clean (content line : string) (c : Candidate) :
  line ∈ strings.Split content "010" ->
  c ∈ Spec.record line ->
  Scenario.cleanRecord c.
Proof.
  intros Hline Hc. unfold Spec.record in Hc.
  pose proof (Split_fields_no_sep content "010" line Hline) as Hnl.
  pose proof (fun f => Split_fields_no_sep line ":" f) as Hcolon.
  pose proof (fun f => Split_fields_count "010" line ":" f) as Hcount.
  destruct (strings.Split line ":") as [| name [| x [| id rest]]];
    try (apply elem_of_nil in Hc; contradiction).
  case_decide as Hname; [apply elem_of_nil in Hc; contradiction |].
  apply list_elem_of_singleton in Hc as ->.
  assert (Hin_name : name ∈ name :: x :: id :: rest) by apply list_elem_of_here.
  assert (Hin_id : id ∈ name :: x :: id :: rest)
    by (do 2 apply list_elem_of_further; apply list_elem_of_here).
  unfold Scenario.cleanRecord. simpl.
  split; [apply Hcolon, Hin_name |].
  split; [specialize (Hcount name Hin_name); lia |].
  split; [apply Hcolon, Hin_id |].
  split; [specialize (Hcount id Hin_id); lia |].
  destruct (Scenario.asciiBlank name) eqn:Hblank; [| reflexivity].
  exfalso. apply Hname, asciiBlank_TrimSpace, Hblank.
Qed.

Lemma database_clean (file : result string) :
  Forall Scenario.cleanRecord (Spec.database file).
Proof.
  destruct file as [content | err]; simpl; [| constructor].
  apply Forall_forall. intros c Hc.
  apply list_elem_of_In, in_flat_map in Hc as [line [Hline Hc]].
  apply (record_clean content line c); apply list_elem_of_In; assumption.
Qed.

(** X1: every candidate of the users and groups providers has a value and
    a description without colon and without newline, and a value with at
    least one byte that is not ASCII white space. *)
Theorem database_candidates_clean (os : OS) (args : list string) :
  exists users groups : list Candidate,
    Invoke ActionUsers os args = Ret (Values users)
    /\ Invoke ActionGroups os args = Ret (Values groups)
    /\ Forall Scenario.cleanRecord users
    /\ Forall Scenario.cleanRecord groups.
Proof.
  exists (Spec.database (ReadFile os "/etc/passwd")),
         (Spec.database (ReadFile os "/etc/group")).
  split; [apply ActionUsers_invoke |].
  split; [apply ActionGroups_invoke |].
  split; apply database_clean.
Qed.

Lemma database_append (content1 content2 : string) :
  Spec.database (Ok (content1 +:+ String "010" content2))
  = Spec.database (Ok content1) ++ Spec.database (Ok content2).
Proof. simpl. rewrite Split_append. apply flat_map_app. Qed.

(** X2: the parsers work line by line: for two contents joined by a
    newline, the candidates are those of the first content followed by those
    of the second, nothing merged, dropped or deduplicated. *)
Theorem database_parsers_append (os : OS) (args : list string)
  (content1 content2 : string) :
  let joined := content1 +:+ String "010" content2 in
  (exists cs1 cs2 : list Candidate,
     Invoke ActionUsers (Scenario.withFile os "/etc/passwd" content1) args
     = Ret (Values cs1)
     /\ Invoke ActionUsers (Scenario.withFile os "/etc/passwd" content2) args
        = Ret (Values cs2)
     /\ Invoke ActionUsers (Scenario.withFile os "/etc/passwd" joined) args
        = Ret (Values (cs1 ++ cs2)))
  /\ (exists cs1 cs2 : list Candidate,
        Invoke ActionGroups (Scenario.withFile os "/etc/group" content1) args
        = Ret (Values cs1)
        /\ Invoke ActionGroups (Scenario.withFile os "/etc/group" content2) args
           = Ret (Values cs2)
        /\ Invoke ActionGroups (Scenario.withFile os "/etc/group" joined) args
           = Ret (Values (cs1 ++ cs2))).
Proof.
  intros joined. subst joined.
  split; exists (Spec.database (Ok content1)), (Spec.database (Ok content2)).
  - rewrite !ActionUsers_invoke. cbn [ReadFile Scenario.withFile].
    rewrite String.eqb_refl, database_append. auto.
  - rewrite !ActionGroups_invoke. cbn [ReadFile Scenario.withFile].
    rewrite String.eqb_refl, database_append. auto.
Qed.

(** ** Further properties of the environment provider *)

(** X3: the environment-variable provider has exactly two outcomes.  It
    panics, with index 1 out of range of a one-element slice, exactly when
    some entry has no equals sign (wherever that entry stands, and no
    candidate is then returned at all); otherwise it returns one candidate
    per entry.  It never returns a message and never panics on a slice
    bound. *)
Theorem ActionEnvironmentVariables_outcome (os : OS) (args : list string) :
  (Exists (fun e => Spec.countByte "=" e = 0) (Environ os)
   <-> Invoke ActionEnvironmentVariables os args = Panic (IndexOutOfRange 1 1))
  /\ (Forall (fun e => 0 < Spec.countByte "=" e) (Environ os)
      <-> exists cs : list Candidate,
            Invoke ActionEnvironmentVariables os args = Ret (Values cs)
            /\ length cs = length (Environ os)).
Proof.
  assert (dec : forall e : string,
            {0 < Spec.countByte "=" e} + {Spec.countByte "=" e = 0})
    by (intros e; destruct (Spec.countByte "=" e);
        [right; reflexivity | left; lia]).
  assert (Hok : Forall (fun e => 0 < Spec.countByte "=" e) (Environ os) ->
                exists cs : list Candidate,
                  Invoke ActionEnvironmentVariables os args = Ret (Values cs)
                  /\ length cs = length (Environ os)).
  { intros Hall.
    destruct (ActionEnvironmentVariables_invoke os args Hall) as [cs [Hcs Hrun]].
    exists cs. split; [exact Hrun |].
    symmetry. apply (Forall2_length _ _ _ Hcs). }
  destruct (Forall_Exists_dec _ _ dec (Environ os)) as [Hall | Hex].
  - destruct (Hok Hall) as [cs [Hrun Hlen]]. split; split.
    + intros Hex. rewrite ActionEnvironmentVariables_panic in Hrun by exact Hex.
      discriminate.
    + intros Hpanic. rewrite Hpanic in Hrun. discriminate.
    + intros _. eauto.
    + intros _. exact Hall.
  - pose proof (ActionEnvironmentVariables_panic os args Hex) as Hpanic.
    split; split.
    + intros _. exact Hpanic.
    + intros _. exact Hex.
    + exact Hok.
    + intros [cs [Hrun _]]. rewrite Hpanic in Hrun. discriminate.
Qed.

(** ** Further properties of the compound provider *)

Lemma LastIndex_terminated (s : string) (sep : ascii) :
  strings.LastIndex (s +:+ String sep "") sep = Some (String.length s).
Proof.
  induction s as [| a s IH]; simpl.
  - rewrite Ascii.eqb_refl. reflexivity.
  - rewrite IH. reflexivity.
Qed.

Lemma substring_whole (s : string) : substring 0 (String.length s) s = s.
Proof.
  induction s as [| a s IH]; simpl; [reflexivity |]. rewrite IH. reflexivity.
Qed.

(** A token that ends with the divider is its own typed prefix. *)
Lemma typedPrefix_terminated (s : string) (sep : ascii) :
  typedPrefix sep (s +:+ String sep "") = s +:+ String sep "".
Proof.
  unfold typedPrefix. rewrite LastIndex_terminated.
  replace (String.length s + 1) with (String.length (s +:+ String sep ""))
    by (rewrite length_append; simpl; lia).
  apply substring_whole.
Qed.

(** X4: completing a user leads to the groups.  For a token without colon,
    every candidate of the compound provider has exactly one colon in its
    value (the appended one), and with that value as the token the compound
    provider returns the groups' candidates, each with that value in front
    of the group name. *)
Theorem ActionUserGroup_accept_user (os : OS) (args : list string)
  (token : string) :
  Spec.countByte ":" token = 0 ->
  exists users groups : list Candidate,
    Invoke ActionUserGroup (Scenario.withToken os token) args
    = Ret (Values users)
    /\ Invoke ActionGroups os args = Ret (Values groups)
    /\ Forall (fun c =>
                 Spec.countByte ":" (Value c) = 1
                 /\ Invoke ActionUserGroup (Scenario.withToken os (Value c)) args
                    = Ret (Values (map (Scenario.withPrefix (Value c)) groups)))
         users.
Proof.
  intros Htoken. rewrite ActionUserGroup_invoke, ActionGroups_invoke.
  cbn [CallbackValue ReadFile Scenario.withToken].
  rewrite Htoken, typedPrefix_none, map_withPrefix_empty by exact Htoken.
  eexists _, _. split; [reflexivity |]. split; [reflexivity |].
  apply Forall_forall. intros c' Hc'.
  apply list_elem_of_fmap in Hc' as [c [-> Hc]].
  pose proof (database_clean (ReadFile os "/etc/passwd")) as Hclean.
  rewrite Forall_forall in Hclean. destruct (Hclean c Hc) as [Hcolon _].
  assert (Hone : Spec.countByte ":" (Value (Spec.withSuffix ":" c)) = 1)
    by (simpl; rewrite countByte_app, Hcolon; reflexivity).
  split; [exact Hone |].
  rewrite ActionUserGroup_invoke.
  cbn [CallbackValue ReadFile Scenario.withToken]. rewrite Hone.
  cbn [Value Spec.withSuffix]. rewrite typedPrefix_terminated. reflexivity.
Qed.

Lemma ActionUserGroup_accept_user_witness :
  Spec.countByte ":" "ro" = 0
  /\ Invoke ActionUserGroup (Scenario.withToken Scenario.unix "ro") []
     = Ret (Values [{| Value := "root:"; Description := "0" |};
                    {| Value := "bin:"; Description := "1" |}])
  /\ Invoke ActionUserGroup (Scenario.withToken Scenario.unix "root:") []
     = Ret (Values [{| Value := "root:audio"; Description := "29" |};
                    {| Value := "root:lp"; Description := "7" |}])
  /\ exists users groups : list Candidate,
       Invoke ActionUserGroup (Scenario.withToken Scenario.unix "ro") []
       = Ret (Values users)
       /\ Invoke ActionGroups Scenario.unix [] = Ret (Values groups)
       /\ Forall (fun c =>
                    Spec.countByte ":" (Value c) = 1
                    /\ Invoke ActionUserGroup
                         (Scenario.withToken Scenario.unix (Value c)) []
                       = Ret (Values
                                (map (Scenario.withPrefix (Value c)) groups)))
            users.
Proof.
  split; [reflexivity |]. split; [reflexivity |]. split; [reflexivity |].
  apply (ActionUserGroup_accept_user Scenario.unix [] "ro"). reflexivity.
Defined.

(** ** Further properties of the shells provider *)

Lemma Join_Split (s : string) (sep : ascii) :
  Scenario.Join (strings.Split s sep) sep = s.
Proof.
  induction s as [| a s IH]; [reflexivity |]. simpl.
  pose proof (Split_length s sep) as Hlen.
  destruct (strings.Split s sep) as [| h t]; [simpl in Hlen; lia |].
  destruct (Ascii.eqb_spec a sep) as [-> | Hne].
  - change (Scenario.Join ("" :: h :: t) sep)
      with ("" +:+ String sep (Scenario.Join (h :: t) sep)).
    rewrite IH. reflexivity.
  - destruct t as [| h' t].
    + simpl in *. rewrite IH. reflexivity.
    + change (Scenario.Join (String a h :: h' :: t) sep)
        with (String a (h +:+ String sep (Scenario.Join (h' :: t) sep))).
      change (Scenario.Join (h :: h' :: t) sep)
        with (h +:+ String sep (Scenario.Join (h' :: t) sep)) in IH.
      rewrite IH. reflexivity.
Qed.

Lemma map_Value_valueOnly (values : list string) :
  map Value (map Spec.valueOnly values) = values.
Proof.
  induction values as [| v values IH]; simpl; [reflexivity |].
  rewrite IH. reflexivity.
Qed.

(** X5: when the command succeeds, the shells provider loses and alters
    nothing: its candidates carry no description, no value contains a
    newline, there is one candidate more than the output has newlines (so
    at least one, also for empty output), and the values joined by newlines
    are the output byte for byte. *)
Theorem ActionShells_values_join (os : OS) (args : list string)
  (output : string) :
  Output os "chsh" ["--list-shells"] = Ok output ->
  exists cs : list Candidate,
    Invoke ActionShells os args = Ret (Values cs)
    /\ length cs = S (Spec.countByte "010" output)
    /\ Scenario.Join (map Value cs) "010" = output
    /\ Forall (fun c => Description c = ""
                        /\ Spec.countByte "010" (Value c) = 0) cs.
Proof.
  intros Hout. rewrite ActionShells_invoke, Hout.
  eexists. split; [reflexivity |].
  split; [rewrite length_map; apply Split_length |].
  split; [rewrite map_Value_valueOnly; apply Join_Split |].
  apply Forall_forall. intros c Hc.
  apply list_elem_of_fmap in Hc as [v [-> Hv]].
  split; [reflexivity |]. simpl. apply (Split_fields_no_sep output), Hv.
Qed.

Lemma ActionShells_values_join_witness :
  exists output : string,
    Output Sample.os "chsh" ["--list-shells"] = Ok output
    /\ exists cs : list Candidate,
         Invoke ActionShells Sample.os [] = Ret (Values cs)
         /\ length cs = S (Spec.countByte "010" output)
         /\ Scenario.Join (map Value cs) "010" = output
         /\ Forall (fun c => Description c = ""
                             /\ Spec.countByte "010" (Value c) = 0) cs.
Proof.
  eexists. split; [reflexivity |].
  apply (ActionShells_values_join Sample.os []). reflexivity.
Defined.

(** X6: whenever the output of the command ends with a newline, the last
    candidate of the shells provider has the empty string as its value; the
    candidates before it are the lines of the output. *)
Theorem ActionShells_final_newline (os : OS) (args : list string)
  (text : string) :
  Output os "chsh" ["--list-shells"] = Ok (text +:+ String "010" "") ->
  Invoke ActionShells os args
  = Ret (Values (map Spec.valueOnly (strings.Split text "010")
                 ++ [Spec.valueOnly ""])).
Proof.
  intros Hout. rewrite ActionShells_invoke, Hout, Split_append, map_app.
  reflexivity.
Qed.

Lemma ActionShells_final_newline_witness :
  Output Sample.os "chsh" ["--list-shells"]
  = Ok (("/bin/bash" +:+ String "010" "/bin/zsh") +:+ String "010" "")
  /\ Invoke ActionShells Sample.os []
     = Ret (Values
              (map Spec.valueOnly
                 (strings.Split ("/bin/bash" +:+ String "010" "/bin/zsh") "010")
               ++ [Spec.valueOnly ""])).
Proof.
  split; [reflexivity |].
  apply (ActionShells_final_newline Sample.os []). reflexivity.
Defined.

(** ** Further properties of the PATH provider *)

Lemma files_loop_true (files : list FileInfo) (m : gmap string bool) :
  (forall k v, m !! k = Some v -> v = true) ->
  forall k v,
    foldl (fun executables f =>
             if IsRegular (Mode f) && isExecAny (Mode f)
             then <[Name f := true]> executables
             else executables) m files !! k = Some v ->
    v = true.
Proof.
  revert m. induction files as [| f files IH]; intros m Hm; simpl; [exact Hm |].
  apply IH. destruct (IsRegular (Mode f) && isExecAny (Mode f)); [| exact Hm].
  intros k v. destruct (decide (Name f = k)) as [-> | Hne].
  - rewrite lookup_insert_eq. congruence.
  - rewrite lookup_insert_ne by exact Hne. apply Hm.
Qed.

Lemma pathExecutables_true (os : OS) (k : string) (v : bool) :
  pathExecutables os !! k = Some v -> v = true.
Proof.
  unfold pathExecutables.
  generalize (strings.Split (Getenv os "PATH") ":"). intros folders.
  assert (Hempty : forall k v, (∅ : gmap string bool) !! k = Some v -> v = true)
    by (intros k' v'; rewrite lookup_empty; discriminate).
  revert Hempty k v. generalize (∅ : gmap string bool).
  induction folders as [| folder folders IH]; intros m Hm; simpl; [exact Hm |].
  apply IH. destruct (ReadDir os folder) as [files | err]; [| exact Hm].
  apply files_loop_true, Hm.
Qed.

Lemma pathExecutables_none (os : OS) :
  (forall name, ~ Spec.pathExecutable os name) -> pathExecutables os = ∅.
Proof.
  intros Hnone. apply map_empty. intros name.
  destruct (pathExecutables os !! name) eqn:Hlook; [| reflexivity].
  exfalso. apply (Hnone name), pathExecutables_lookup. eauto.
Qed.

(** X7: when no directory listed in PATH can be read, the PATH provider
    returns an empty candidate set: no message, no fault.  (An empty PATH
    has the single entry [""], which the provider tries to read like any
    other.) *)
Theorem ActionPathExecutables_unreadable (keys : gmap string bool -> list string)
  (os : OS) (args : list string) :
  rangeOrder keys ->
  (forall folder, folder ∈ strings.Split (Getenv os "PATH") ":" ->
                  exists err, ReadDir os folder = Err err) ->
  Invoke (ActionPathExecutables keys) os args = Ret (Values []).
Proof.
  intros Horder Hunreadable.
  unfold ActionPathExecutables. cbn [Invoke]. cbv zeta. rewrite foldl_snoc.
  rewrite pathExecutables_none.
  - pose proof (Horder ∅) as Hperm. rewrite map_to_list_empty in Hperm.
    apply Permutation_nil_r in Hperm. rewrite Hperm. reflexivity.
  - intros name [folder [files [f [Hin [Hread _]]]]].
    destruct (Hunreadable folder Hin) as [err Herr]. congruence.
Qed.

Lemma ActionPathExecutables_unreadable_witness :
  rangeOrder Sample.keys
  /\ (forall folder,
        folder ∈ strings.Split
                   (Getenv (Scenario.withoutDirs Sample.os) "PATH") ":" ->
        exists err, ReadDir (Scenario.withoutDirs Sample.os) folder = Err err)
  /\ Invoke (ActionPathExecutables Sample.keys)
       (Scenario.withoutDirs Sample.os) []
     = Ret (Values []).
Proof.
  assert (Horder : rangeOrder Sample.keys) by (intros m; reflexivity).
  assert (Hunreadable :
            forall folder,
              folder ∈ strings.Split
                         (Getenv (Scenario.withoutDirs Sample.os) "PATH") ":" ->
              exists err,
                ReadDir (Scenario.withoutDirs Sample.os) folder = Err err)
    by (intros folder _; exists Sample.noFile; reflexivity).
  split; [exact Horder |]. split; [exact Hunreadable |].
  apply (ActionPathExecutables_unreadable Sample.keys
           (Scenario.withoutDirs Sample.os) [] Horder Hunreadable).
Defined.

(** X8: the PATH provider depends on the set of directories listed in PATH
    only: two values of PATH that list the same directories, in whatever
    order and however often, give the same map of executables, and hence,
    whatever admissible order the run time iterates the map in at each
    invocation, the same candidates up to their order. *)
Theorem ActionPathExecutables_path_set
  (keys1 keys2 : gmap string bool -> list string)
  (os : OS) (args : list string) (path1 path2 : string) :
  rangeOrder keys1 ->
  rangeOrder keys2 ->
  (forall folder, folder ∈ strings.Split path1 ":"
                  <-> folder ∈ strings.Split path2 ":") ->
  pathExecutables (Scenario.withPath os path1)
  = pathExecutables (Scenario.withPath os path2)
  /\ exists vals1 vals2 : list string,
       Invoke (ActionPathExecutables keys1) (Scenario.withPath os path1) args
       = Ret (Values (map Spec.valueOnly vals1))
       /\ Invoke (ActionPathExecutables keys2) (Scenario.withPath os path2) args
          = Ret (Values (map Spec.valueOnly vals2))
       /\ vals1 ≡ₚ vals2.
Proof.
  intros Horder1 Horder2 Hsame.
  assert (Hmap : pathExecutables (Scenario.withPath os path1)
                 = pathExecutables (Scenario.withPath os path2)).
  { apply map_eq. intros name.
    assert (Hiff : is_Some (pathExecutables (Scenario.withPath os path1) !! name)
                   <-> is_Some (pathExecutables (Scenario.withPath os path2) !! name)).
    { rewrite !pathExecutables_lookup. unfold Spec.pathExecutable.
      cbn [Getenv ReadDir Scenario.withPath]. rewrite String.eqb_refl.
      split; intros [folder [files [f [Hin H]]]]; exists folder, files, f;
        (split; [apply Hsame, Hin | exact H]). }
    destruct (pathExecutables (Scenario.withPath os path1) !! name) as [v1 |]
      eqn:H1;
      destruct (pathExecutables (Scenario.withPath os path2) !! name) as [v2 |]
        eqn:H2.
    - apply pathExecutables_true in H1, H2. congruence.
    - destruct (proj1 Hiff (mk_is_Some _ _ eq_refl)) as [? [=]].
    - destruct (proj2 Hiff (mk_is_Some _ _ eq_refl)) as [? [=]].
    - reflexivity. }
  split; [exact Hmap |].
  exists (keys1 (pathExecutables (Scenario.withPath os path1))),
         (keys2 (pathExecutables (Scenario.withPath os path2))).
  split; [| split].
  - unfold ActionPathExecutables. cbn [Invoke]. cbv zeta.
    rewrite foldl_snoc. reflexivity.
  - unfold ActionPathExecutables. cbn [Invoke]. cbv zeta.
    rewrite foldl_snoc. reflexivity.
  - rewrite (Horder1 _), (Horder2 _), Hmap. reflexivity.
Qed.

Lemma ActionPathExecutables_path_set_witness :
  rangeOrder Sample.keys
  /\ rangeOrder Scenario.reversedKeys
  /\ (forall folder, folder ∈ strings.Split "/bin:/usr/bin:/bin" ":"
                     <-> folder ∈ strings.Split "/usr/bin:/bin" ":")
  /\ Invoke (ActionPathExecutables Sample.keys)
       (Scenario.withPath Scenario.unix "/bin:/usr/bin:/bin") []
     = Ret (Values [Spec.valueOnly "sh"; Spec.valueOnly "env";
                    Spec.valueOnly "ls"])
  /\ Invoke (ActionPathExecutables Scenario.reversedKeys)
       (Scenario.withPath Scenario.unix "/usr/bin:/bin") []
     = Ret (Values [Spec.valueOnly "ls"; Spec.valueOnly "env";
                    Spec.valueOnly "sh"])
  /\ pathExecutables (Scenario.withPath Scenario.unix "/bin:/usr/bin:/bin")
     = pathExecutables (Scenario.withPath Scenario.unix "/usr/bin:/bin")
  /\ exists vals1 vals2 : list string,
       Invoke (ActionPathExecutables Sample.keys)
         (Scenario.withPath Scenario.unix "/bin:/usr/bin:/bin") []
       = Ret (Values (map Spec.valueOnly vals1))
       /\ Invoke (ActionPathExecutables Scenario.reversedKeys)
            (Scenario.withPath Scenario.unix "/usr/bin:/bin") []
          = Ret (Values (map Spec.valueOnly vals2))
       /\ vals1 ≡ₚ vals2.
Proof.
  assert (Horder1 : rangeOrder Sample.keys) by (intros m; reflexivity).
  assert (Horder2 : rangeOrder Scenario.reversedKeys)
    by (intros m; apply reverse_Permutation).
  assert (Hsame : forall folder,
            folder ∈ strings.Split "/bin:/usr/bin:/bin" ":"
            <-> folder ∈ strings.Split "/usr/bin:/bin" ":").
  { intros folder. simpl. rewrite !elem_of_cons, !elem_of_nil. tauto. }
  split; [exact Horder1 |]. split; [exact Horder2 |]. split; [exact Hsame |].
  split; [vm_compute; reflexivity |]. split; [vm_compute; reflexivity |].
  apply (ActionPathExecutables_path_set Sample.keys Scenario.reversedKeys
           Scenario.unix [] "/bin:/usr/bin:/bin" "/usr/bin:/bin"
           Horder1 Horder2 Hsame).
Defined.

(** ** Further properties of the process provider *)

Lemma Itoa_inj (i j : Z) : strconv.Itoa i = strconv.Itoa j -> i = j.
Proof.
  intros Heq. pose proof (Atoi_Itoa i) as Hi. rewrite Heq, Atoi_Itoa in Hi.
  congruence.
Qed.

(** X11: when the pids of the process table are pairwise distinct, so are
    the descriptions of the candidates: a candidate identifies its process
    also when several processes run the same executable. *)
Theorem ActionProcessExecutables_distinct (os : OS) (args : list string)
  (processes : list Process) :
  Processes os = Ok processes ->
  NoDup (map Pid processes) ->
  exists cs : list Candidate,
    Invoke ActionProcessExecutables os args = Ret (Values cs)
    /\ map Value cs = map Executable processes
    /\ NoDup (map Description cs).
Proof.
  intros Hps Hpids. rewrite ActionProcessExecutables_invoke, Hps.
  eexists. split; [reflexivity |].
  rewrite !map_map. split; [reflexivity |].
  change (NoDup (map (fun p => strconv.Itoa (Pid p)) processes)).
  rewrite <- (map_map Pid strconv.Itoa).
  assert (Hinj : Inj (=) (=) strconv.Itoa) by (intros i j; apply Itoa_inj).
  apply (NoDup_fmap_2 strconv.Itoa), Hpids.
Qed.

Lemma ActionProcessExecutables_distinct_witness :
  exists processes : list Process,
    Processes Sample.os = Ok processes
    /\ NoDup (map Pid processes)
    /\ exists cs : list Candidate,
         Invoke ActionProcessExecutables Sample.os [] = Ret (Values cs)
         /\ map Value cs = map Executable processes
         /\ NoDup (map Description cs).
Proof.
  eexists. split; [reflexivity |].
  assert (Hpids : NoDup (map Pid [ {| Pid := 439; PPid := 1;
                                      Executable := "NetworkManager" |};
                                   {| Pid := 454; PPid := 1;
                                      Executable := "cupsd" |} ])).
  { apply NoDup_ListNoDup. simpl. repeat constructor; simpl.
    - intros [H | []]. discriminate.
    - intros []. }
  split; [exact Hpids |].
  apply (ActionProcessExecutables_distinct Sample.os [] _ eq_refl Hpids).
Defined.

(** ** Lengths of descriptions *)

Lemma length_string_of_uint (d : uint) :
  String.length (NilEmpty.string_of_uint d) = nb_digits d.
Proof. induction d; simpl; congruence. Qed.

Lemma succ_digit (d : uint) (r : nat) :
  r <= 9 -> nb_digits (Nat.iter r Little.succ (D0 d)) = S (nb_digits d).
Proof.
  intros Hr. do 10 (destruct r as [| r]; [reflexivity |]). lia.
Qed.

Lemma to_lu_add (n : N) (r : nat) :
  Unsigned.to_lu (n + N.of_nat r) = Nat.iter r Little.succ (Unsigned.to_lu n).
Proof.
  induction r as [| r IH].
  - simpl. rewrite N.add_0_r. reflexivity.
  - rewrite Nat2N.inj_succ, N.add_succ_r, Unsigned.to_lu_succ, IH. reflexivity.
Qed.

(** A number below [10 ^ (k + 1)] has at most [k + 1] decimal digits. *)
Lemma to_lu_digits (k : nat) (n : N) :
  (n < 10 ^ N.of_nat (S k))%N -> nb_digits (Unsigned.to_lu n) <= S k.
Proof.
  revert n. induction k as [| k IH]; intros n Hn.
  - change (10 ^ N.of_nat 1)%N with 10%N in Hn.
    replace n with (0 + N.of_nat (N.to_nat n))%N by lia.
    rewrite to_lu_add. change (Unsigned.to_lu 0) with (D0 Nil).
    rewrite succ_digit by lia. simpl. lia.
  - destruct (N.ltb_spec n 10) as [Hsmall | Hbig].
    + replace n with (0 + N.of_nat (N.to_nat n))%N by lia.
      rewrite to_lu_add. change (Unsigned.to_lu 0) with (D0 Nil).
      rewrite succ_digit by lia. simpl. lia.
    + pose proof (N.div_mod n 10 ltac:(lia)) as Hdiv.
      pose proof (N.mod_lt n 10 ltac:(lia)) as Hmod.
      set (q := (n / 10)%N) in *. set (r := (n mod 10)%N) in *.
      assert (Hq : (0 < q)%N) by lia.
      assert (Hqk : (q < 10 ^ N.of_nat (S k))%N).
      { rewrite (Nat2N.inj_succ (S k)), N.pow_succ_r' in Hn. lia. }
      destruct q as [| p] eqn:Hqp; [lia |].
      rewrite Hdiv. replace r with (N.of_nat (N.to_nat r)) by lia.
      rewrite to_lu_add, Unsigned.to_ldec_tenfold, succ_digit by lia.
      specialize (IH (N.pos p) Hqk). lia.
Qed.

(** A Go [int] renders in at most 20 bytes. *)
Lemma Itoa_length (i : Z) :
  Scenario.goInt i -> String.length (strconv.Itoa i) <= 20.
Proof.
  unfold Scenario.goInt. intros Hi. unfold strconv.Itoa.
  assert (Hpos : forall p : positive,
            (Z.pos p <= 2 ^ 63)%Z ->
            String.length (NilZero.string_of_uint (Pos.to_uint p)) <= 19).
  { intros p Hp. unfold NilZero.string_of_uint.
    pose proof (Unsigned.to_uint_nonnil p) as Hnil.
    destruct (Pos.to_uint p) eqn:Hd; try contradiction; rewrite <- Hd;
      rewrite length_string_of_uint; unfold Pos.to_uint; rewrite nb_digits_rev;
      apply (to_lu_digits 18 (N.pos p));
      change (10 ^ N.of_nat 19)%N with 10000000000000000000%N; lia. }
  destruct i as [| p | p]; simpl.
  - lia.
  - specialize (Hpos p ltac:(lia)). lia.
  - specialize (Hpos p ltac:(lia)). lia.
Qed.

Lemma Split_no_sep (s : string) (sep : ascii) :
  Spec.countByte sep s = 0 -> strings.Split s sep = [s].
Proof.
  induction s as [| a s IH]; simpl; [reflexivity |].
  destruct (Ascii.eqb a sep); simpl; [discriminate |].
  intros Hs. rewrite IH by exact Hs. reflexivity.
Qed.

(** A record line [name:x:id] yields the id whole, whatever its length. *)
Lemma database_id_whole (name id : string) :
  Spec.countByte ":" name = 0 ->
  Spec.countByte "010" name = 0 ->
  strings.TrimSpace name <> "" ->
  Spec.countByte ":" id = 0 ->
  Spec.countByte "010" id = 0 ->
  Spec.database (Ok (name +:+ String ":" ("x" +:+ String ":" id)))
  = [{| Value := name; Description := id |}].
Proof.
  intros Hname Hname' Hblank Hid Hid'. simpl.
  rewrite Split_no_sep
    by (rewrite countByte_app; simpl; rewrite Hname', Hid'; reflexivity).
  simpl. unfold Spec.record.
  rewrite Split_append, (Split_no_sep name) by exact Hname.
  rewrite (Split_append "x" id), (Split_no_sep id) by exact Hid.
  simpl. case_decide; [contradiction | reflexivity].
Qed.

Lemma envCandidate_described (e : string) (c : Candidate) :
  Spec.envCandidate e c -> Scenario.envDescribed e c /\ Scenario.short c.
Proof.
  intros [name [value [Hsplit ->]]]. split.
  - exists name, value. split; [exact Hsplit |]. split; [reflexivity |].
    simpl. unfold Spec.truncate. split.
    + intros Hshort. case_decide; [lia | reflexivity].
    + intros Hlong. case_decide; [| lia]. split; [reflexivity |].
      rewrite length_append, length_substring_prefix by lia. reflexivity.
  - unfold Scenario.short. simpl. apply truncate_length.
Qed.

Lemma valueOnly_short (values : list string) :
  Forall Scenario.short (map Spec.valueOnly values).
Proof.
  apply Forall_forall. intros c Hc.
  apply list_elem_of_fmap in Hc as [v [-> _]].
  unfold Scenario.short. simpl. lia.
Qed.

(** C9, as amended: every candidate emitted by the environment-variable,
    kill-signal, process-executable (pids being Go ints), shells and PATH
    providers has a description of at most 40 bytes; in the
    environment-variable provider a value of at most 40 bytes is the
    description unchanged and a longer value has been replaced by a 40-byte
    string, its first 37 bytes followed by three dots.  The bound does not
    hold for all providers: the process-state table has a description
    longer than 40 bytes, and the users and groups providers emit an id
    field of any length whole. *)
Theorem descriptions_bound (keys : gmap string bool -> list string) (os : OS)
  (args : list string) :
  (forall cs : list Candidate,
     Invoke ActionEnvironmentVariables os args = Ret (Values cs)
     \/ Invoke ActionKillSignals os args = Ret (Values cs)
     \/ Invoke ActionShells os args = Ret (Values cs)
     \/ Invoke (ActionPathExecutables keys) os args = Ret (Values cs) ->
     Forall Scenario.short cs)
  /\ (forall (cs : list Candidate) (processes : list Process),
        Processes os = Ok processes ->
        Forall (fun p => Scenario.goInt (Pid p)) processes ->
        Invoke ActionProcessExecutables os args = Ret (Values cs) ->
        Forall Scenario.short cs)
  /\ (forall cs : list Candidate,
        Invoke ActionEnvironmentVariables os args = Ret (Values cs) ->
        Forall2 Scenario.envDescribed (Environ os) cs)
  /\ (exists (cs : list Candidate) (c : Candidate),
        Invoke ActionProcessStates os args = Ret (Values cs)
        /\ c ∈ cs
        /\ 40 < String.length (Description c))
  /\ (forall id : string,
        Spec.countByte ":" id = 0 ->
        Spec.countByte "010" id = 0 ->
        Invoke ActionUsers
          (Scenario.withFile os "/etc/passwd" ("u:x:" +:+ id)) args
        = Ret (Values [{| Value := "u"; Description := id |}])
        /\ Invoke ActionGroups
             (Scenario.withFile os "/etc/group" ("g:x:" +:+ id)) args
           = Ret (Values [{| Value := "g"; Description := id |}])).
Proof.
  split; [| split; [| split; [| split]]].
  - intros cs [Henv | [Hkill | [Hshells | Hpath]]].
    + apply ActionEnvironmentVariables_returned in Henv.
      induction Henv as [| e c es cs Hc _ IH]; constructor; [| exact IH].
      apply (envCandidate_described e c Hc).
    + injection Hkill as <-. unfold Scenario.short.
      repeat constructor; simpl; lia.
    + rewrite ActionShells_invoke in Hshells.
      destruct (Output os "chsh" ["--list-shells"]); [| discriminate].
      injection Hshells as <-. apply valueOnly_short.
    + unfold ActionPathExecutables in Hpath. cbn [Invoke] in Hpath.
      injection Hpath as <-. apply valueOnly_short.
  - intros cs processes Hps Hint Hrun.
    rewrite ActionProcessExecutables_invoke, Hps in Hrun.
    injection Hrun as <-. apply Forall_forall. intros c Hc.
    apply list_elem_of_fmap in Hc as [p [-> Hp]].
    rewrite Forall_forall in Hint. specialize (Hint p Hp).
    apply Itoa_length in Hint. unfold Scenario.short. simpl. lia.
  - intros cs Henv. apply ActionEnvironmentVariables_returned in Henv.
    induction Henv as [| e c es cs Hc _ IH]; constructor; [| exact IH].
    apply (envCandidate_described e c Hc).
  - eexists _, {| Value := "Z"; Description := _ |}.
    split; [reflexivity |].
    split; [do 7 apply list_elem_of_further; apply list_elem_of_here |].
    simpl. lia.
  - intros id Hcolon Hnl.
    rewrite ActionUsers_invoke, ActionGroups_invoke.
    cbn [ReadFile Scenario.withFile]. rewrite !String.eqb_refl.
    split.
    + do 2 f_equal.
      apply (database_id_whole "u" id); try reflexivity; try assumption.
      discriminate.
    + do 2 f_equal.
      apply (database_id_whole "g" id); try reflexivity; try assumption.
      discriminate.
Qed.

Lemma descriptions_bound_witness :
  Invoke ActionEnvironmentVariables Sample.os []
  = Ret (Values
           [{| Value := "SHELL"; Description := "/bin/elvish" |};
            {| Value := "LS_COLORS";
               Description := "rs=0:di=01;34:ln=01;36:mh=00:pi=40;33..." |};
            {| Value := "EMPTY"; Description := "" |}])
  /\ Forall Scenario.short
       [{| Value := "SHELL"; Description := "/bin/elvish" |};
        {| Value := "LS_COLORS";
           Description := "rs=0:di=01;34:ln=01;36:mh=00:pi=40;33..." |};
        {| Value := "EMPTY"; Description := "" |}].
Proof.
  split; [reflexivity |].
  apply (proj1 (descriptions_bound Sample.keys Sample.os [])).
  left. reflexivity.
Defined.
